(** * fairseq2: configuration walk, tokenizer family handlers, dataset
      stubs, option records, module size accounting and layer-drop lists.

    A shallow embedding of the Python sources under [src/fairseq2] and the
    properties they satisfy.  Python objects live in an explicit heap,
    exceptions are values of an inductive type, and code that raises
    returns a result carrying either a value or the exception. *)

From stdpp Require Import base option list gmap strings pretty sorting.
From Stdlib Require Import ZArith NArith Floats Ascii.

Local Open Scope string_scope.
Local Open Scope list_scope.
Local Open Scope nat_scope.

Set Warnings "-clear-no-such-hyp".

(* ===================================================================== *)
(** * fairseq2/utils/config.py                                            *)
(* ===================================================================== *)

Module Config.

(** Objects are identified by their address, classes by their qualified
    name. *)
Definition loc := nat.
Definition kls := string.

(** The heap maps the address of an object to its attribute dictionary
    (attribute name to the address of the value).  An address with no
    entry is an object without attributes. *)
Abbreviation heap := (gmap loc (gmap string loc)).

(** The exceptions of the walk.  [StructureError msg cause] carries the
    exception it was raised [from]; [OtherError] is any exception of a
    class that is not [StructureError] (a [LookupError], a [ValueError],
    ...). *)
#[warnings="-register-all"]
Inductive exn :=
| StructureError (msg : string) (cause : option exn)
| AttributeError (attr : string)
| OtherError (tag : string).

(** [ConfigSectionHandler.process(section)]: abstract in the source.  A
    handler reads and may mutate the heap (a handler typically structures
    the fields of its section in place), and either returns [None] or
    raises. *)
Definition ConfigSectionHandler := loc → heap → heap * option exn.

(** The state threaded through the walk: the heap, and the record of the
    handler calls made so far (class looked up, object passed), oldest
    first. *)
Record state := State {
  st_heap : heap;
  st_calls : list (kls * loc);
}.

(** Outcome of a computation: a value, an exception raised by the program,
    or the [RecursionError] that the interpreter raises when the calls of
    [process] nest deeper than its recursion limit allows.  No [except]
    clause of the walk catches a [RecursionError], so it ends the walk
    from whatever depth it is raised at. *)
Inductive res (A : Type) :=
| Val (a : A)
| Exc (e : exn)
| RecursionError.
Arguments Val {A} a.
Arguments Exc {A} e.
Arguments RecursionError {A}.

Definition M (A : Type) : Type := state → state * res A.

Global Instance M_ret : MRet M := λ A a s, (s, Val a).

Global Instance M_bind : MBind M := λ A B f m s,
  match m s with
  | (s', Val a) => f a s'
  | (s', Exc e) => (s', Exc e)
  | (s', RecursionError) => (s', RecursionError)
  end.

Definition raise {A} (e : exn) : M A := λ s, (s, Exc e).

Definition recursion_error {A} : M A := λ s, (s, RecursionError).

(** [try: m except StructureError as ex: ... ] written with a handler [h]
    that raises again what it does not catch; a [RecursionError] is not a
    [StructureError] and passes. *)
Definition try_except {A} (m : M A) (h : exn → M A) : M A := λ s,
  match m s with
  | (s', Exc e) => h e s'
  | r => r
  end.

(** [for x in l: body x] *)
Fixpoint for_each {A} (l : list A) (body : A → M unit) : M unit :=
  match l with
  | [] => mret tt
  | x :: l' => body x ;; for_each l' body
  end.

(** [getattr(config, name)] *)
Definition getattr (config : loc) (name : string) : M loc := λ s,
  match st_heap s !! config ≫= λ attrs, attrs !! name with
  | Some v => (s, Val v)
  | None => (s, Exc (AttributeError name))
  end.

(** [section_handler.process(config)], recorded in [st_calls]. *)
Definition call (section_handler : ConfigSectionHandler)
    (config_kls : kls) (config : loc) : M unit := λ s,
  let '(h', r) := section_handler config (st_heap s) in
  let s' := State h' (st_calls s ++ [(config_kls, config)]) in
  match r with
  | None => (s', Val tt)
  | Some e => (s', Exc e)
  end.

Definition cannot_be_structured (field : string) : string :=
  "`" +:+ field +:+ "` cannot be structured. See the nested exception for details.".

Section StandardConfigProcessor.

(** [type(config)]: the class of the object at each address.  An object
    keeps its class for its lifetime, so the typing of addresses is fixed
    while the heap changes. *)
Variable type : loc → kls.

(** The class declarations of the program: [dataclasses.is_dataclass(k)],
    and the names of [dataclasses.fields(k)] in declaration order. *)
Variable is_dataclass : kls → bool.
Variable fields : kls → list string.

(** [self._section_handlers]: [Provider.get(kls)] returns the handler
    registered for [kls] or raises [LookupError] ([None]). *)
Variable _section_handlers : kls → option ConfigSectionHandler.

(** [StandardConfigProcessor.process].  [fuel] is the recursion limit of
    the interpreter, counted in nested calls of [process]: the call that
    would nest deeper than [fuel] raises [RecursionError].  A walk that
    returns does so at every limit that is large enough; a walk that ends
    with [RecursionError] at every limit never returns. *)
Fixpoint process (fuel : nat) (config : loc) : M unit :=
  match fuel with
  | O => recursion_error
  | S fuel =>
    let config_kls := type config in
    if negb (is_dataclass config_kls) then mret tt
    else
      match _section_handlers config_kls with
      | None => mret tt
      | Some section_handler => call section_handler config_kls config
      end;;
      for_each (fields config_kls) (λ field,
        field_value ← getattr config field;
        try_except (process fuel field_value) (λ ex,
          match ex with
          | StructureError _ _ =>
              raise (StructureError (cannot_be_structured field) (Some ex))
          | _ => raise ex
          end))
  end.

(** ** The walk, spelled out

    The same walk written without the monad, as the sequence of steps it
    takes: the type test, the handler of the exact class, then the
    fields one after the other. *)

(** The dataclass an object is an instance of, with its fields; [None]
    for an object that is not an instance of a dataclass. *)
Definition dataclass_of (config : loc) : option (kls * list string) :=
  if is_dataclass (type config) then Some (type config, fields (type config))
  else None.

(** Applying the handler registered for class [k], if there is one. *)
Definition handled (k : kls) (config : loc) (s : state) : state * res unit :=
  match _section_handlers k with
  | None => (s, Val tt)
  | Some h =>
      (State (h config (st_heap s)).1 (st_calls s ++ [(k, config)]),
       match (h config (st_heap s)).2 with
       | None => Val tt
       | Some e => Exc e
       end)
  end.

(** What the [except StructureError] clause makes of an exception raised
    under field [field]. *)
Definition wrap (field : string) (e : exn) : exn :=
  match e with
  | StructureError _ _ => StructureError (cannot_be_structured field) (Some e)
  | _ => e
  end.

(** The value of attribute [f] of [config] in heap [h], if it is set. *)
Definition attr (h : heap) (config : loc) (f : string) : option loc :=
  attrs ← h !! config; attrs !! f.

(** Visiting the values of the fields [flds] of [config] from left to
    right, each read when its turn comes, stopping at the first one that
    fails. *)
Fixpoint fields_in_order (visit : loc → state → state * res unit)
    (config : loc) (flds : list string) (s : state) : state * res unit :=
  match flds with
  | [] => (s, Val tt)
  | f :: rest =>
      match attr (st_heap s) config f with
      | None => (s, Exc (AttributeError f))
      | Some v =>
          match visit v s with
          | (s', Val _) => fields_in_order visit config rest s'
          | (s', Exc e) => (s', Exc (wrap f e))
          | (s', RecursionError) => (s', RecursionError)
          end
      end
  end.

(** ** Well-founded nesting

    [rank] bounds the nesting of dataclass fields in heap [h]: the value
    of every field of every dataclass instance has a smaller rank than the
    instance.  Attributes that are not fields, and attributes of objects
    that are not dataclass instances, are not constrained. *)
Definition ranked (rank : loc → nat) (h : heap) : Prop :=
  ∀ config k flds f v,
    dataclass_of config = Some (k, flds) → f ∈ flds →
    attr h config f = Some v → rank v < rank config.

(** Every registered handler, called on an instance of its class, leaves
    the nesting bounded by [rank].  A handler that only checks its section
    does; so does one that structures a field into an object of smaller
    rank. *)
Definition handlers_keep (rank : loc → nat) : Prop :=
  ∀ k hd config h,
    _section_handlers k = Some hd → type config = k →
    ranked rank h → ranked rank (hd config h).1.

(** The dataclass instances met by a walk that changes nothing, parents
    before children and siblings in field order. *)
Fixpoint preorder (fuel : nat) (h : heap) (config : loc) : list (kls * loc) :=
  match fuel with
  | O => []
  | S fuel =>
      match dataclass_of config with
      | None => []
      | Some (k, flds) =>
          (k, config) ::
          flat_map (λ f, from_option (preorder fuel h) [] (attr h config f)) flds
      end
  end.

(** The calls, among [calls], on classes that have a registered handler. *)
Definition registered (calls : list (kls * loc)) : list (kls * loc) :=
  filter (λ c, is_Some (_section_handlers c.1)) calls.

End StandardConfigProcessor.

End Config.

(** A recipe configuration used to exercise the walk.

<<
   1 : RecipeConfig(model=2, dataset=3)
   2 : ModelSection(name=10, config=11)      11 : an unstructured dict
   3 : DatasetSection(name=12)
   4 : ModelConfig(num_layers=13)            not yet reachable
>>
    The handler of [ModelSection] structures the section in place: it
    stores the [ModelConfig] at address 4 and points the section's
    [config] field at it.  The handler of [DatasetSection] rejects its
    section. *)
Module ConfigExample.

Import Config.

Definition type (l : loc) : kls :=
  match l with
  | 1 => "RecipeConfig"
  | 2 => "ModelSection"
  | 3 => "DatasetSection"
  | 4 => "ModelConfig"
  | 11 => "dict"
  | 13 => "int"
  | _ => "str"
  end.

Definition fields (k : kls) : list string :=
  if String.eqb k "RecipeConfig" then ["model"; "dataset"]
  else if String.eqb k "ModelSection" then ["name"; "config"]
  else if String.eqb k "DatasetSection" then ["name"]
  else if String.eqb k "ModelConfig" then ["num_layers"]
  else [].

Definition is_dataclass (k : kls) : bool :=
  bool_decide (k ∈ ["RecipeConfig"; "ModelSection"; "DatasetSection"; "ModelConfig"]).

Definition recipe : heap :=
  {[ 1 := {[ "model" := 2; "dataset" := 3 ]};
     2 := {[ "name" := 10; "config" := 11 ]};
     3 := {[ "name" := 12 ]} ]}.

Definition structure_model : ConfigSectionHandler := λ section h,
  (<[section := <["config" := 4]> (default ∅ (h !! section))]>
     (<[4 := {[ "num_layers" := 13 ]}]> h),
   None).

Definition reject_dataset : ConfigSectionHandler := λ section h,
  (h, Some (StructureError "unknown dataset family" None)).

(** Only [ModelSection] has a handler. *)
Definition model_only (k : kls) : option ConfigSectionHandler :=
  if String.eqb k "ModelSection" then Some structure_model else None.

(** [ModelSection] and [DatasetSection] have handlers. *)
Definition model_and_dataset (k : kls) : option ConfigSectionHandler :=
  if String.eqb k "ModelSection" then Some structure_model
  else if String.eqb k "DatasetSection" then Some reject_dataset
  else None.

(** A handler that checks its section and accepts it. *)
Definition accept : ConfigSectionHandler := λ section h, (h, None).

(** The two sections have handlers that only check. *)
Definition checks_only (k : kls) : option ConfigSectionHandler :=
  if String.eqb k "ModelSection" then Some accept
  else if String.eqb k "DatasetSection" then Some accept
  else None.

(** The recipe once its model section is structured. *)
Definition structured_recipe : heap := (structure_model 2 recipe).1.

Definition rank (l : loc) : nat :=
  match l with
  | 1 => 3
  | 2 => 2
  | 3 => 1
  | 4 => 1
  | _ => 0
  end.

End ConfigExample.

(** A section that its handler structures by nesting a new section under
    it.

<<
   @dataclass
   class Node:
       child: object = None

   class NodeHandler(ConfigSectionHandler):
       def process(self, section):
           section.child = Node()
>>
    Address 1 is [None]; every other address is a [Node].  The
    configuration is the single [Node()] at address 0. *)
Module ConfigNesting.

Import Config.

Definition type (l : loc) : kls :=
  match l with
  | 1 => "NoneType"
  | _ => "Node"
  end.

Definition fields (k : kls) : list string :=
  if String.eqb k "Node" then ["child"] else [].

Definition is_dataclass (k : kls) : bool := String.eqb k "Node".

(** [Node()] at address 0, and [None]. *)
Definition node : heap := {[ 0 := {[ "child" := 1 ]}; 1 := ∅ ]}.

(** [section.child = Node()]: the new [Node] is allocated at an address
    not in use, with [None] as its child. *)
Definition nest : ConfigSectionHandler := λ section h,
  let child := fresh (dom h) in
  (<[section := <["child" := child]> (default ∅ (h !! section))]>
     (<[child := {[ "child" := 1 ]}]> h),
   None).

Definition handlers (k : kls) : option ConfigSectionHandler :=
  if String.eqb k "Node" then Some nest else None.

Definition rank (l : loc) : nat :=
  match l with
  | 0 => 1
  | _ => 0
  end.

End ConfigNesting.

(* ===================================================================== *)
(** * fairseq2/data/tokenizers/handler.py                                 *)
(* ===================================================================== *)

Module Tokenizers.

Definition kls := string.
Definition Path := string.

(** A parsed URI: [uri.scheme] and the rest. *)
Record Uri := { scheme : string; uri_rest : string }.

(** A configuration object: its class and its content. *)
Record object := { obj_type : kls; obj_repr : string }.

(** The exceptions the handler tells apart.  A constructor stands for its
    class and the subclasses that no [except] clause of the handler names:
    [OSError] is any [OSError] other than a [FileNotFoundError];
    [OtherError] is any exception outside the classes listed here.  The
    [cause] is the exception an error was raised [from]. *)
#[warnings="-register-all"]
Inductive exn :=
| ValueError (msg : string)
| TypeError (msg : string)
| TokenizerModelError (path : Path) (msg : string)
| FileNotFoundError (msg : string)
| OSError (msg : string)
| AssetCardError (name msg : string) (cause : option exn)
| InternalError (msg : string) (cause : option exn)
| OperationalError (msg : string) (cause : option exn)
| DependencyNotFoundError (kind : string)
| OtherError (tag : string).

Inductive res (A : Type) :=
| Val (a : A)
| Exc (e : exn).
Arguments Val {A} a.
Arguments Exc {A} e.

(** The calls made on the collaborators of the handler, oldest first. *)
Inductive call :=
| Download (uri : Uri) (name : string) (progress : bool)
| LoadConfig (card_name : string) (default_config : object) (config_key : string)
| Load (path : Path) (config : object).

Definition M (A : Type) : Type := list call → list call * res A.

Global Instance M_ret : MRet M := λ A a log, (log, Val a).

Global Instance M_bind : MBind M := λ A B f m log,
  match m log with
  | (log', Val a) => f a log'
  | (log', Exc e) => (log', Exc e)
  end.

Definition raise {A} (e : exn) : M A := λ log, (log, Exc e).

(** A computation that touches no collaborator. *)
Definition pure {A} (r : res A) : M A := λ log, (log, r).

(** A call on a collaborator, recorded. *)
Definition perform {A} (c : call) (r : res A) : M A := λ log, (log ++ [c], r).

(** [try: m except Exception as ex: h ex] *)
Definition try_except {A} (m : M A) (h : exn → M A) : M A := λ log,
  match m log with
  | (log', Exc e) => h e log'
  | r => r
  end.

(** [str(k)] for a class [k]. *)
Definition class_repr (k : kls) : string := "<class '" +:+ k +:+ "'>".

Section Handler.

(** [Tokenizer] and [FileSystem] are opaque to the handler. *)
Context {Tokenizer FileSystem : Type}.

(** [issubclass(a, b)] of the program's classes. *)
Variable issubclass : kls → kls → bool.

(** [k()]: instantiating class [k] with no argument. *)
Variable construct : kls → res object.

(** [raise_operational_system_error(cause)] ([fairseq2.error], not among
    the sources) does not return: it raises [operational_system_error
    cause]. *)
Variable operational_system_error : exn → exn.

Definition raise_operational_system_error {A} (cause : exn) : M A :=
  raise (operational_system_error cause).

Definition isinstance (o : object) (k : kls) : bool := issubclass (obj_type o) k.

(** An asset card, as far as the handler reads it: [card.name] and the
    outcome of [card.field("tokenizer").as_uri()]. *)
Record AssetCard := {
  card_name : string;
  card_tokenizer_uri : res Uri;
}.

Record AssetDownloadManager := {
  supported_schemes : gset string;
  download_tokenizer : Uri → string → bool → res Path;
}.

Record AssetConfigLoader := {
  load : AssetCard → object → string → res object;
}.

(** [TokenizerLoader.__call__(path, config)] *)
Definition TokenizerLoader := Path → object → res Tokenizer.

Record StandardTokenizerFamilyHandler := {
  _family : string;
  _config_kls : kls;
  _loader : TokenizerLoader;
  _file_system : FileSystem;
  _asset_download_manager : AssetDownloadManager;
  _asset_config_loader : AssetConfigLoader;
}.

(** The [family] and [config_kls] properties. *)
Definition family (self : StandardTokenizerFamilyHandler) : string := _family self.
Definition config_kls (self : StandardTokenizerFamilyHandler) : kls := _config_kls self.

Definition get_tokenizer_config (self : StandardTokenizerFamilyHandler)
    (card : AssetCard) : M object :=
  default_config ←
    try_except (pure (construct (_config_kls self))) (λ ex,
      match ex with
      | TypeError _ =>
          raise (InternalError
                   ("Default configuration of the " +:+ _family self +:+
                    " tokenizer family cannot be constructed.")
                   (Some ex))
      | _ => raise ex
      end);
  perform (LoadConfig (card_name card) default_config "tokenizer_config")
          (load (_asset_config_loader self) card default_config "tokenizer_config").

(** The message of the [TypeError] raised for a configuration of the wrong
    type. *)
Definition must_be_of_type (expected : kls) (config : object) : string :=
  "`config` must be of type `" +:+ class_repr expected +:+
  "`, but is of type `" +:+ class_repr (obj_type config) +:+ "` instead.".

(** The block of [load_tokenizer] under [# Load the configuration.]: the
    configuration to load with, and [has_custom_config]. *)
Definition load_configuration (self : StandardTokenizerFamilyHandler)
    (card : AssetCard) (config : option object) : M (object * bool) :=
  match config with
  | None =>
      config ← get_tokenizer_config self card;
      mret (config, false)
  | Some config =>
      if negb (isinstance config (_config_kls self)) then
        raise (TypeError (must_be_of_type (_config_kls self) config))
      else mret (config, true)
  end.

Definition load_tokenizer (self : StandardTokenizerFamilyHandler)
    (card : AssetCard) (config : option object) (progress : bool) : M Tokenizer :=
  let name := card_name card in
  uri ← pure (card_tokenizer_uri card);
  if negb (bool_decide
             (scheme uri ∈ supported_schemes (_asset_download_manager self)))
  then
    raise (AssetCardError name
             ("tokenizer URI scheme of the " +:+ name +:+
              " asset card is expected to be a supported scheme, but is " +:+
              scheme uri +:+ " instead.")
             None)
  else
    path ← perform (Download uri name progress)
                   (download_tokenizer (_asset_download_manager self)
                      uri name progress);
    '(config, has_custom_config) ← load_configuration self card config;
    try_except (perform (Load path config) (_loader self path config)) (λ ex,
      match ex with
      | ValueError _ =>
          if has_custom_config : bool then raise ex
          else
            raise (AssetCardError name
                     ("tokenizer_config field of the " +:+ name +:+
                      " asset card is not a valid " +:+ _family self +:+
                      " tokenizer configuration.")
                     (Some ex))
      | TokenizerModelError _ _ =>
          raise (AssetCardError name
                   ("Tokenizer model of the " +:+ name +:+
                    " asset card cannot be loaded.")
                   (Some ex))
      | FileNotFoundError _ =>
          if negb (String.eqb (scheme uri) "file") then
            raise_operational_system_error ex
          else
            raise (AssetCardError name
                     (path +:+ " pointed to by the tokenizer field of the " +:+
                      name +:+ " asset card is not found.")
                     None)
      | OSError _ => raise_operational_system_error ex
      | _ => raise ex
      end).

(** What the [except] clauses of [load_tokenizer] make of an exception
    [ex] raised by the loader. *)
Definition translated (self : StandardTokenizerFamilyHandler) (name : string)
    (uri : Uri) (path : Path) (has_custom_config : bool) (ex : exn) : exn :=
  match ex with
  | ValueError _ =>
      if has_custom_config then ex
      else AssetCardError name
             ("tokenizer_config field of the " +:+ name +:+
              " asset card is not a valid " +:+ _family self +:+
              " tokenizer configuration.")
             (Some ex)
  | TokenizerModelError _ _ =>
      AssetCardError name
        ("Tokenizer model of the " +:+ name +:+ " asset card cannot be loaded.")
        (Some ex)
  | FileNotFoundError _ =>
      if String.eqb (scheme uri) "file" then
        AssetCardError name
          (path +:+ " pointed to by the tokenizer field of the " +:+ name +:+
           " asset card is not found.")
          None
      else operational_system_error ex
  | OSError _ => operational_system_error ex
  | _ => ex
  end.

Definition load_custom_tokenizer (self : StandardTokenizerFamilyHandler)
    (path : Path) (config : object) : M Tokenizer :=
  if negb (isinstance config (_config_kls self)) then
    raise (TypeError (must_be_of_type (_config_kls self) config))
  else perform (Load path config) (_loader self path config).

(** Modelled from the spec: [DependencyResolver] and [DependencyContainer]
    ([fairseq2.runtime.dependency]) are not among the sources.  The spec
    describes a registry in which families are registered and resolved by
    name at runtime: a container keeps, per kind of object and per key,
    the factory registered last, and resolving a kind under a key calls
    that factory with the container as resolver.  A kind that was not
    registered cannot be resolved.  A resolver is what a factory sees of
    the container: the services it can ask for. *)
Record DependencyResolver := {
  resolve_FileSystem : res FileSystem;
  resolve_AssetDownloadManager : res AssetDownloadManager;
  resolve_AssetConfigLoader : res AssetConfigLoader;
}.

(** [AdvancedTokenizerLoader.__call__(resolver, path, config)] *)
Definition AdvancedTokenizerLoader :=
  DependencyResolver → Path → object → res Tokenizer.

(** The variables of [register_tokenizer_family] that [create_handler]
    closes over.  [loader] is declared [nonlocal] and assigned by
    [create_handler]: it is a cell shared by all the calls of the factory. *)
Record closure := {
  cl_family : string;
  cl_config_kls : kls;
  cl_loader : option TokenizerLoader;
  cl_advanced_loader : option AdvancedTokenizerLoader;
}.

Definition set_loader (env : closure) (loader : option TokenizerLoader) : closure :=
  {| cl_family := cl_family env; cl_config_kls := cl_config_kls env;
     cl_loader := loader; cl_advanced_loader := cl_advanced_loader env |}.

Global Instance res_ret : MRet res := λ A a, Val a.

Global Instance res_bind : MBind res := λ A B f r,
  match r with
  | Val a => f a
  | Exc e => Exc e
  end.

(** [create_handler], the factory that [register_tokenizer_family]
    registers: the closure after the call, and the handler or the
    exception raised. *)
Definition create_handler (env : closure) (resolver : DependencyResolver)
    : closure * res StandardTokenizerFamilyHandler :=
  let '(env, loader) :=
    match cl_advanced_loader env with
    | Some advanced_loader =>
        match cl_loader env with
        | Some _ =>
            (env, Exc (ValueError
               "`loader` and `advanced_loader` must not be specified at the same time."))
        | None =>
            let load_tokenizer : TokenizerLoader := λ path config,
              advanced_loader resolver path config in
            (set_loader env (Some load_tokenizer), Val load_tokenizer)
        end
    | None =>
        match cl_loader env with
        | None =>
            (env, Exc (ValueError "`loader` or `advanced_loader` must be specified."))
        | Some loader => (env, Val loader)
        end
    end in
  (env,
   loader ← loader;
   file_system ← resolve_FileSystem resolver;
   asset_download_manager ← resolve_AssetDownloadManager resolver;
   asset_config_loader ← resolve_AssetConfigLoader resolver;
   mret {| _family := cl_family env; _config_kls := cl_config_kls env;
           _loader := loader; _file_system := file_system;
           _asset_download_manager := asset_download_manager;
           _asset_config_loader := asset_config_loader |}).

(** Modelled from the spec: the container, as far as tokenizer families
    use it.  It holds the three services a handler is built from, when
    they are registered, and the factories registered under
    [TokenizerFamilyHandler], by key. *)
Record DependencyContainer := {
  c_file_system : option FileSystem;
  c_asset_download_manager : option AssetDownloadManager;
  c_asset_config_loader : option AssetConfigLoader;
  c_tokenizer_family_handlers : gmap string closure;
}.

(** Modelled from the spec: the container with its factories replaced. *)
Definition set_factories (c : DependencyContainer) (m : gmap string closure)
    : DependencyContainer :=
  {| c_file_system := c_file_system c;
     c_asset_download_manager := c_asset_download_manager c;
     c_asset_config_loader := c_asset_config_loader c;
     c_tokenizer_family_handlers := m |}.

(** Modelled from the spec: the container seen as a resolver. *)
Definition resolver_of (c : DependencyContainer) : DependencyResolver :=
  {| resolve_FileSystem :=
       from_option Val (Exc (DependencyNotFoundError "FileSystem"))
                   (c_file_system c);
     resolve_AssetDownloadManager :=
       from_option Val (Exc (DependencyNotFoundError "AssetDownloadManager"))
                   (c_asset_download_manager c);
     resolve_AssetConfigLoader :=
       from_option Val (Exc (DependencyNotFoundError "AssetConfigLoader"))
                   (c_asset_config_loader c) |}.

(** Modelled from the spec:
    [container.register(TokenizerFamilyHandler, factory, key=key)]. *)
Definition register_TokenizerFamilyHandler (c : DependencyContainer)
    (factory : closure) (key : string) : DependencyContainer :=
  set_factories c (<[key := factory]> (c_tokenizer_family_handlers c)).

(** Modelled from the spec:
    [resolver.resolve(TokenizerFamilyHandler, key=key)]: the container
    after the call, and what the factory registered under [key] returns. *)
Definition resolve_TokenizerFamilyHandler (c : DependencyContainer) (key : string)
    : DependencyContainer * res StandardTokenizerFamilyHandler :=
  match c_tokenizer_family_handlers c !! key with
  | None => (c, Exc (DependencyNotFoundError "TokenizerFamilyHandler"))
  | Some factory =>
      let '(factory, r) := create_handler factory (resolver_of c) in
      (set_factories c (<[key := factory]> (c_tokenizer_family_handlers c)), r)
  end.

Definition register_tokenizer_family (container : DependencyContainer)
    (family : string) (config_kls : kls)
    (loader : option TokenizerLoader)
    (advanced_loader : option AdvancedTokenizerLoader) : DependencyContainer :=
  register_TokenizerFamilyHandler container
    {| cl_family := family; cl_config_kls := config_kls;
       cl_loader := loader; cl_advanced_loader := advanced_loader |}
    family.

(** The calls a run of [load_tokenizer] may add to the record: at most
    one download, then at most one read of the configuration of the card,
    then at most one call of the loader, and none of the later ones
    without the download. *)
Definition calls_in_order (new : list call) : bool :=
  match new with
  | []
  | [Download _ _ _]
  | [Download _ _ _; LoadConfig _ _ _]
  | [Download _ _ _; Load _ _]
  | [Download _ _ _; LoadConfig _ _ _; Load _ _] => true
  | _ => false
  end.

Definition is_LoadConfig (c : call) : bool :=
  match c with
  | LoadConfig _ _ _ => true
  | _ => false
  end.

(** The handler [self] with another [AssetConfigLoader]. *)
Definition with_asset_config_loader (self : StandardTokenizerFamilyHandler)
    (asset_config_loader : AssetConfigLoader) : StandardTokenizerFamilyHandler :=
  {| _family := _family self; _config_kls := _config_kls self;
     _loader := _loader self; _file_system := _file_system self;
     _asset_download_manager := _asset_download_manager self;
     _asset_config_loader := asset_config_loader |}.

End Handler.

End Tokenizers.

(** A tokenizer family used to exercise the handler.  The loader fails in
    a way chosen by the content of the configuration it is given; the
    configuration read from an asset card has the name of the card as its
    content. *)
Module TokenizersExample.

Import Tokenizers.

Definition issubclass (a b : kls) : bool := String.eqb a b || String.eqb b "object".

Definition construct (k : kls) : res object :=
  Val {| obj_type := k; obj_repr := "default" |}.

Definition operational_system_error (cause : exn) : exn :=
  OperationalError
    "A system error has occurred. See the nested exception for details."
    (Some cause).

Definition loader : @TokenizerLoader string := λ path config,
  if String.eqb (obj_repr config) "invalid" then
    Exc (ValueError "unknown vocabulary kind")
  else if String.eqb (obj_repr config) "corrupt" then
    Exc (TokenizerModelError path "not a SentencePiece model")
  else if String.eqb (obj_repr config) "missing" then
    Exc (FileNotFoundError path)
  else if String.eqb (obj_repr config) "denied" then
    Exc (OSError "permission denied")
  else Val ("tokenizer at " +:+ path).

Definition download_manager : AssetDownloadManager :=
  {| supported_schemes := {[ "file"; "https" ]};
     download_tokenizer := λ uri name progress, Val ("/cache/" +:+ name) |}.

Definition config_loader : AssetConfigLoader :=
  {| load := λ card default_config key,
       Val {| obj_type := obj_type default_config; obj_repr := card_name card |} |}.

Definition container : @DependencyContainer string unit :=
  {| c_file_system := Some tt;
     c_asset_download_manager := Some download_manager;
     c_asset_config_loader := Some config_loader;
     c_tokenizer_family_handlers := ∅ |}.

(** A container in which no service is registered. *)
Definition empty_container : @DependencyContainer string unit :=
  {| c_file_system := None;
     c_asset_download_manager := None;
     c_asset_config_loader := None;
     c_tokenizer_family_handlers := ∅ |}.

Definition handler : @StandardTokenizerFamilyHandler string unit :=
  {| _family := "char"; _config_kls := "CharTokenizerConfig";
     _loader := loader; _file_system := tt;
     _asset_download_manager := download_manager;
     _asset_config_loader := config_loader |}.

(** A card named [name] whose tokenizer is at [scheme://tok.model]. *)
Definition card (name scheme : string) : AssetCard :=
  {| card_name := name;
     card_tokenizer_uri := Val {| scheme := scheme; uri_rest := "tok.model" |} |}.

Definition config (content : string) : object :=
  {| obj_type := "CharTokenizerConfig"; obj_repr := content |}.

(** A configuration class that cannot be called without argument. *)
Definition no_default (k : kls) : res object :=
  Exc (TypeError "__init__() missing 1 required positional argument: 'vocab'").

(** A download manager without network, and a configuration loader that
    finds the configuration of every card malformed. *)
Definition offline_manager : AssetDownloadManager :=
  {| supported_schemes := {[ "file"; "https" ]};
     download_tokenizer := λ uri name progress, Exc (OSError "network is unreachable") |}.

Definition strict_config_loader : AssetConfigLoader :=
  {| load := λ card default_config key, Exc (ValueError "unknown field") |}.

Definition offline_handler : @StandardTokenizerFamilyHandler string unit :=
  {| _family := "char"; _config_kls := "CharTokenizerConfig";
     _loader := loader; _file_system := tt;
     _asset_download_manager := offline_manager;
     _asset_config_loader := config_loader |}.

(** A card without a [tokenizer] field. *)
Definition card_without_tokenizer : AssetCard :=
  {| card_name := "en";
     card_tokenizer_uri := Exc (OtherError "AssetCardFieldNotFoundError") |}.

(** A loader that takes the resolver, and asks it for nothing. *)
Definition advanced_loader : @AdvancedTokenizerLoader string unit :=
  λ resolver path config, loader path config.

End TokenizersExample.

(* ===================================================================== *)
(** * fairseq2/datasets/config.py                                         *)
(* ===================================================================== *)

Module DatasetsConfig.

Local Open Scope Z_scope.

(** [StaticBatching(batch_size)] and [LengthBatching(max_num_elements)];
    [Batching] is their union. *)
Record StaticBatching := { batch_size : Z }.
Record LengthBatching := { max_num_elements : Z }.

Inductive Batching :=
| Static (b : StaticBatching)
| Length (b : LengthBatching).

(** [SyncMode] is a string, ["until_first"] or ["until_last"]. *)
Definition SyncMode := string.

(** Mutable mappings live in a store, by address: two options records may
    hold the same mapping. *)
Definition loc := nat.
Abbreviation store object := (gmap loc (gmap string object)).

Section DataReadOptions.

(** The values of the reader-specific extra options. *)
Context {object : Type}.

Record DataReadOptions := {
  example_shuffle_window : Z;
  batch_shuffle_window : Z;
  drop_remainder : bool;
  sync_batches : bool;
  sync_mode : SyncMode;
  max_num_batches : option Z;
  num_accumulate : Z;
  num_prefetch : Z;
  seed : Z;
  extras : loc;
}.

(** The keyword arguments of a call of [DataReadOptions]: [None] for an
    argument that is left out.  [max_num_batches] is itself optional, so
    passing it is [Some (Some n)] or [Some None]. *)
Record DataReadOptions_kwargs := {
  kw_example_shuffle_window : option Z;
  kw_batch_shuffle_window : option Z;
  kw_drop_remainder : option bool;
  kw_sync_batches : option bool;
  kw_sync_mode : option SyncMode;
  kw_max_num_batches : option (option Z);
  kw_num_accumulate : option Z;
  kw_num_prefetch : option Z;
  kw_seed : option Z;
  kw_extras : option loc;
}.

(** [DataReadOptions()] *)
Definition no_kwargs : DataReadOptions_kwargs :=
  {| kw_example_shuffle_window := None; kw_batch_shuffle_window := None;
     kw_drop_remainder := None; kw_sync_batches := None; kw_sync_mode := None;
     kw_max_num_batches := None; kw_num_accumulate := None;
     kw_num_prefetch := None; kw_seed := None; kw_extras := None |}.

(** [dict()]: a new, empty mapping at an address not in use. *)
Definition new_dict (h : store object) : store object * loc :=
  let l := fresh (dom h) in (<[l := ∅]> h, l).

(** The generated [__init__]: a field takes the argument passed for it,
    and its default otherwise; the default of [extras] is made by
    [default_factory=dict] at each call. *)
Definition DataReadOptions_init (kw : DataReadOptions_kwargs) (h : store object)
    : store object * DataReadOptions :=
  let '(h, extras) :=
    match kw_extras kw with
    | Some l => (h, l)
    | None => new_dict h
    end in
  (h,
   {| example_shuffle_window := default 1 (kw_example_shuffle_window kw);
      batch_shuffle_window := default 1 (kw_batch_shuffle_window kw);
      drop_remainder := default false (kw_drop_remainder kw);
      sync_batches := default true (kw_sync_batches kw);
      sync_mode := default "until_first" (kw_sync_mode kw);
      max_num_batches := default None (kw_max_num_batches kw);
      num_accumulate := default 1 (kw_num_accumulate kw);
      num_prefetch := default 1 (kw_num_prefetch kw);
      seed := default 2 (kw_seed kw);
      extras := extras |}).

End DataReadOptions.

End DatasetsConfig.

(* ===================================================================== *)
(** * fairseq2/datasets/speech.py                                         *)
(* ===================================================================== *)

Module Speech.

Import DatasetsConfig.

Definition Path := string.

Inductive exn :=
| NotSupportedError (msg : string).

Section GenericSpeechDataset.

(** [Gang], [DataType] and the reader are opaque to the dataset. *)
Context {Gang DataType DataPipelineReader : Type}.

(** [SpeechReadOptions(DataReadOptions)] *)
Record SpeechReadOptions := {
  base : DataReadOptions;
  dtype : DataType;
  normalize_audio : bool;
}.

Definition GENERIC_SPEECH_DATASET_FAMILY : string := "generic_speech".

(** [GenericSpeechDataset] has no attribute. *)
Record GenericSpeechDataset : Set := GenericSpeechDataset_init { }.

Definition from_path (path : Path) (name : option string) : GenericSpeechDataset :=
  GenericSpeechDataset_init.

(** [create_reader]: the dataset after the call, and the reader returned
    or the exception raised. *)
Definition create_reader (self : GenericSpeechDataset) (split : string)
    (gang : Gang) (min_audio_len max_audio_len : Z) (batching : Batching)
    (options : option SpeechReadOptions)
    : GenericSpeechDataset * (exn + DataPipelineReader) :=
  (self, inl (NotSupportedError "not supported yet.")).

Definition splits (self : GenericSpeechDataset) : gset string := ∅.

End GenericSpeechDataset.

End Speech.

(* ===================================================================== *)
(** * fairseq2/utils/log.py                                               *)
(* ===================================================================== *)

Module Log.

Local Open Scope Z_scope.

(** A tensor, as far as its size is read: [numel()] and [element_size()]
    are counts, [requires_grad] a flag; [to_local] is the local shard of a
    [DTensor], and [None] for any other tensor. *)
Record Tensor := {
  numel : N;
  element_size : N;
  requires_grad : bool;
  to_local : option N;
}.

(** A module, as far as its size is read: what [module.parameters()] and
    [module.buffers()] yield. *)
Record Module_ := {
  parameters : list (option Tensor);
  buffers : list (option Tensor);
}.

Record ModuleSizeInfo := {
  param_size : Z;
  param_size_bytes : Z;
  trainable_param_size : Z;
  trainable_param_size_bytes : Z;
  buffer_size : Z;
  buffer_size_bytes : Z;
  total_size : Z;
  total_size_bytes : Z;
}.

(** The keyword arguments of a call of [ModuleSizeInfo]. *)
Record ModuleSizeInfo_kwargs := {
  kw_param_size : option Z;
  kw_param_size_bytes : option Z;
  kw_trainable_param_size : option Z;
  kw_trainable_param_size_bytes : option Z;
  kw_buffer_size : option Z;
  kw_buffer_size_bytes : option Z;
  kw_total_size : option Z;
  kw_total_size_bytes : option Z;
}.

Definition no_kwargs : ModuleSizeInfo_kwargs :=
  {| kw_param_size := None; kw_param_size_bytes := None;
     kw_trainable_param_size := None; kw_trainable_param_size_bytes := None;
     kw_buffer_size := None; kw_buffer_size_bytes := None;
     kw_total_size := None; kw_total_size_bytes := None |}.

(** The generated [__init__]. *)
Definition ModuleSizeInfo_init (kw : ModuleSizeInfo_kwargs) : ModuleSizeInfo :=
  {| param_size := default 0 (kw_param_size kw);
     param_size_bytes := default 0 (kw_param_size_bytes kw);
     trainable_param_size := default 0 (kw_trainable_param_size kw);
     trainable_param_size_bytes := default 0 (kw_trainable_param_size_bytes kw);
     buffer_size := default 0 (kw_buffer_size kw);
     buffer_size_bytes := default 0 (kw_buffer_size_bytes kw);
     total_size := default 0 (kw_total_size kw);
     total_size_bytes := default 0 (kw_total_size_bytes kw) |}.

(** The fields of [ModuleSizeInfo], by name. *)
Inductive field :=
| f_param_size
| f_param_size_bytes
| f_trainable_param_size
| f_trainable_param_size_bytes
| f_buffer_size
| f_buffer_size_bytes
| f_total_size
| f_total_size_bytes.

Global Instance field_eq_dec : EqDecision field.
Proof. solve_decision. Defined.

(** [info.name] *)
Definition getattr (info : ModuleSizeInfo) (name : field) : Z :=
  match name with
  | f_param_size => param_size info
  | f_param_size_bytes => param_size_bytes info
  | f_trainable_param_size => trainable_param_size info
  | f_trainable_param_size_bytes => trainable_param_size_bytes info
  | f_buffer_size => buffer_size info
  | f_buffer_size_bytes => buffer_size_bytes info
  | f_total_size => total_size info
  | f_total_size_bytes => total_size_bytes info
  end.

(** [info.name = value].  [ModuleSizeInfo] is declared with
    [@dataclass(kw_only=True)]: it is not frozen, so the assignment
    stores [value] in the field and leaves the other fields alone. *)
Definition setattr (info : ModuleSizeInfo) (name : field) (value : Z)
    : ModuleSizeInfo :=
  let stored f := if decide (f = name) then value else getattr info f in
  {| param_size := stored f_param_size;
     param_size_bytes := stored f_param_size_bytes;
     trainable_param_size := stored f_trainable_param_size;
     trainable_param_size_bytes := stored f_trainable_param_size_bytes;
     buffer_size := stored f_buffer_size;
     buffer_size_bytes := stored f_buffer_size_bytes;
     total_size := stored f_total_size;
     total_size_bytes := stored f_total_size_bytes |}.

(** [info.name += n] *)
Definition iadd (info : ModuleSizeInfo) (name : field) (n : Z) : ModuleSizeInfo :=
  setattr info name (getattr info name + n).

(** A sequence of assignments [info.name = value], first to last. *)
Definition assign (info : ModuleSizeInfo) (assignments : list (field * Z))
    : ModuleSizeInfo :=
  fold_left (λ info a, setattr info a.1 a.2) assignments info.

(** [get_numel], local to [get_module_size_info]. *)
Definition get_numel (tensor : Tensor) : Z :=
  match to_local tensor with
  | Some local_numel => Z.of_N local_numel
  | None => Z.of_N (numel tensor)
  end.

(** The body of [for param in module.parameters()]: the sizes are added
    to the fields of [info] by augmented assignments, one after the
    other. *)
Definition count_param (info : ModuleSizeInfo) (param : option Tensor)
    : ModuleSizeInfo :=
  match param with
  | None => info
  | Some param =>
      let numel := get_numel param in
      let size_bytes := numel * Z.of_N (element_size param) in
      let info := iadd info f_param_size numel in
      let info := iadd info f_param_size_bytes size_bytes in
      let info :=
        if requires_grad param then
          let info := iadd info f_trainable_param_size numel in
          iadd info f_trainable_param_size_bytes size_bytes
        else info in
      let info := iadd info f_total_size numel in
      iadd info f_total_size_bytes size_bytes
  end.

(** The body of [for buffer in module.buffers()]. *)
Definition count_buffer (info : ModuleSizeInfo) (buffer : option Tensor)
    : ModuleSizeInfo :=
  match buffer with
  | None => info
  | Some buffer =>
      let numel := Z.of_N (Log.numel buffer) in
      let size_bytes := numel * Z.of_N (element_size buffer) in
      let info := iadd info f_buffer_size numel in
      let info := iadd info f_buffer_size_bytes size_bytes in
      let info := iadd info f_total_size numel in
      iadd info f_total_size_bytes size_bytes
  end.

Definition get_module_size_info (module : Module_) : ModuleSizeInfo :=
  let info := ModuleSizeInfo_init no_kwargs in
  let info := fold_left count_param (parameters module) info in
  let info := fold_left count_buffer (buffers module) info in
  info.

(** What every step of the two loops keeps. *)
Definition consistent (info : ModuleSizeInfo) : Prop :=
  total_size info = param_size info + buffer_size info
  ∧ total_size_bytes info = param_size_bytes info + buffer_size_bytes info
  ∧ 0 ≤ trainable_param_size info ≤ param_size info
  ∧ 0 ≤ trainable_param_size_bytes info ≤ param_size_bytes info
  ∧ 0 ≤ buffer_size info
  ∧ 0 ≤ buffer_size_bytes info.

(** The sum of [f] over the tensors of [l]; the entries that are [None]
    count for nothing. *)
Definition total (f : Tensor → Z) (l : list (option Tensor)) : Z :=
  foldr (λ t acc, from_option f 0 t + acc) 0 l.

(** [f], counted for the tensors that require a gradient only. *)
Definition if_trainable (f : Tensor → Z) (t : Tensor) : Z :=
  if requires_grad t then f t else 0.

(** The size in bytes of a tensor whose number of elements is [n t]. *)
Definition bytes (n : Tensor → Z) (t : Tensor) : Z := n t * Z.of_N (element_size t).

(** The number of elements of a tensor as a whole, sharded or not. *)
Definition global_numel (t : Tensor) : Z := Z.of_N (numel t).

End Log.

(* ===================================================================== *)
(** * fairseq2/utils/log.py: the host line of [log_system_info]           *)
(* ===================================================================== *)

Module LogSystem.

(** ** The distribution name

    [read_dist_name], local to [log_system_info].  A character of a line
    is a code point below 256. *)

(** The double quote. *)
Definition quote : ascii := "034"%char.

(** The line feed that ends a line read from a file. *)
Definition newline : ascii := "010"%char.

Section read_dist_name.

(** [c.isspace()] for a character [c]. *)
Variable isspace : ascii → bool.

(** [s.lstrip()], [s.rstrip()] and [s.strip()] *)
Fixpoint lstrip (s : string) : string :=
  match s with
  | EmptyString => EmptyString
  | String c s' => if isspace c then lstrip s' else s
  end.

Fixpoint rstrip (s : string) : string :=
  match s with
  | EmptyString => EmptyString
  | String c s' =>
      match rstrip s' with
      | EmptyString => if isspace c then EmptyString else String c EmptyString
      | r => String c r
      end
  end.

Definition strip (s : string) : string := rstrip (lstrip s).

(** [s.split(sep, maxsplit=1)] for a separator of one character: the text
    before the first [sep] and the text after it, or [s] alone. *)
Fixpoint split1 (sep : ascii) (s : string) : list string :=
  match s with
  | EmptyString => [EmptyString]
  | String c s' =>
      if Ascii.eqb c sep then [EmptyString; s']
      else
        match split1 sep s' with
        | before :: rest => String c before :: rest
        | [] => []
        end
  end.

(** [s[-1]], when [s] is not empty. *)
Fixpoint last_char (s : string) : option ascii :=
  match s with
  | EmptyString => None
  | String c EmptyString => Some c
  | String _ s' => last_char s'
  end.

(** [s[:-1]] *)
Fixpoint drop_last (s : string) : string :=
  match s with
  | EmptyString => EmptyString
  | String c EmptyString => EmptyString
  | String c s' => String c (drop_last s')
  end.

(** The lines under [# Unquote]. *)
Definition unquote (name : string) : string :=
  match name with
  | String first rest =>
      if (2 <=? String.length name)
         && Ascii.eqb first quote
         && bool_decide (last_char name = Some quote)
      then drop_last rest
      else name
  | EmptyString => name
  end.

(** The loop over the lines of the file.  A line that starts with
    [PRETTY_NAME] ends it: with the name, or by [break] when the line
    has no [=]. *)
Fixpoint scan (lines : list string) : option string :=
  match lines with
  | [] => None
  | line :: lines =>
      if String.prefix "PRETTY_NAME" line then
        match split1 "=" (rstrip line) with
        | [_; value] => Some (unquote (strip value))
        | _ => None
        end
      else scan lines
  end.

(** [read_dist_name()].  [os_release] is [None] when [/etc/os-release]
    cannot be opened, and otherwise the lines read from it; an [OSError]
    while reading ends the loop as the end of the file does. *)
Definition read_dist_name (os_release : option (list string)) : option string :=
  match os_release with
  | None => None
  | Some lines => scan lines
  end.

End read_dist_name.

(** ** The CPUs

    The block of [log_system_info] that computes [cpu_info]. *)

Inductive exn :=
| IndexError.

(** The loop over [available_cpus[1:]], and the [append] after it. *)
Fixpoint collect (cpus : list nat) (range_b range_e : nat)
    (cpu_ranges : list (nat * nat)) : list (nat * nat) :=
  match cpus with
  | [] => cpu_ranges ++ [(range_b, range_e)]
  | cpu :: cpus =>
      if cpu =? range_e + 1 then collect cpus range_b cpu cpu_ranges
      else collect cpus cpu cpu (cpu_ranges ++ [(range_b, range_e)])
  end.

(** [cpu_ranges] for the sorted list [available_cpus]; [None] is the
    [IndexError] of [available_cpus[0]] on an empty list. *)
Definition cpu_ranges (available_cpus : list nat) : option (list (nat * nat)) :=
  match available_cpus with
  | [] => None
  | first :: rest => Some (collect rest first first [])
  end.

(** The entry of [cpu_range_strs] for a range. *)
Definition cpu_range_str (r : nat * nat) : string :=
  let '(range_b, range_e) := r in
  if range_b =? range_e then pretty range_b
  else pretty range_b +:+ "-" +:+ pretty range_e.

(** [list(affinity_mask)], sorted. *)
Definition sorted_cpus (affinity_mask : gset nat) : list nat :=
  merge_sort (≤) (elements affinity_mask).

(** [cpu_info].  [num_cpus] is [os.cpu_count()]; [sched_getaffinity] is
    the set [os.sched_getaffinity(0)] returns, and [None] where the
    function does not exist ([AttributeError]). *)
Definition cpu_info (num_cpus : option nat) (sched_getaffinity : option (gset nat))
    : exn + string :=
  let affinity_mask :=
    match sched_getaffinity with
    | Some mask => Some mask
    | None =>
        match num_cpus with
        | None => None
        | Some num_cpus => Some (set_seq 0 num_cpus)
        end
    end in
  match num_cpus, affinity_mask with
  | Some num_cpus, Some affinity_mask =>
      let cpu_info := pretty (size affinity_mask) +:+ "/" +:+ pretty num_cpus in
      if negb (size affinity_mask =? num_cpus) then
        match cpu_ranges (sorted_cpus affinity_mask) with
        | None => inl IndexError
        | Some cpu_ranges =>
            inr (cpu_info +:+ " (" +:+
                 String.concat "," (cpu_range_str <$> cpu_ranges) +:+ ")")
        end
      else inr cpu_info
  | _, _ => inr "-"
  end.

(** The CPUs of a range. *)
Definition cpus_of (r : nat * nat) : list nat := seq r.1 (S r.2 - r.1).

(** Ranges that are not empty, go up, and leave a gap of at least one CPU
    between one range and the next. *)
Fixpoint separated (ranges : list (nat * nat)) : Prop :=
  match ranges with
  | [] => True
  | (b, e) :: rest =>
      b ≤ e
      ∧ match rest with
        | [] => True
        | (b', _) :: _ => e + 1 < b'
        end
      ∧ separated rest
  end.

End LogSystem.

(** An [/etc/os-release] used to exercise [read_dist_name]. *)
Module LogSystemExample.

Import LogSystem.

(** [c.isspace()] for the characters below 256: the ASCII white space,
    the four separators from 28 to 31, the next line control and the
    no-break space. *)
Definition isspace (c : ascii) : bool :=
  bool_decide (nat_of_ascii c ∈ [9; 10; 11; 12; 13; 28; 29; 30; 31; 32; 133; 160]).

(** A line of the file: the text and the line feed. *)
Definition line (text : string) : string := text +:+ String newline "".

(** [KEY="value"] *)
Definition quoted (key value : string) : string :=
  key +:+ "=" +:+ String quote (value +:+ String quote "").

Definition os_release : list string :=
  [line (quoted "NAME" "Ubuntu");
   line (quoted "PRETTY_NAME" "Ubuntu 22.04.4 LTS");
   line "ID=ubuntu"].

End LogSystemExample.

(* ===================================================================== *)
(** * fairseq2/nn/module_list.py                                          *)
(* ===================================================================== *)

Module ModuleList.

Section ModuleList.

(** [torch.nn.Module] is opaque to the list. *)
Context {Module_ : Type}.

(** A [ModuleList]: the submodules of the underlying [nn.ModuleList] in
    insertion order, [drop_p], and the [training] flag of [nn.Module]. *)
Record ModuleList := {
  modules : list Module_;
  drop_p : float;
  training : bool;
}.

(** [ModuleList(modules, drop_p)]; a new module is in training mode. *)
Definition ModuleList_init (modules : option (list Module_)) (drop_p : option float)
    : ModuleList :=
  {| modules := default [] modules; drop_p := default 0%float drop_p;
     training := true |}.

(** [enumerate(l)] *)
Definition enumerate {A} (l : list A) : list (nat * A) := imap pair l.

(** A Python [float] converted to [torch.float32]: the binary64 value is
    rounded to the nearest binary32 value, ties to even, and to an
    infinity past the largest one.  Every binary32 value is a binary64
    value, so the result is held as a [float] again. *)
Definition to_float32 (x : float) : float :=
  match Prim2SF x with
  | S754_finite s m e => SF2Prim (binary_round 24 128 s m e)
  | _ => x
  end.

(** [__iter__], as the list of the submodules it yields.  [rand idx] is
    the entry at [idx] of the sample that [torch.rand(len(self),
    dtype=torch.float)] would draw, a binary32 value.  The test on
    [drop_p] alone compares Python floats.  In [prob_dist[idx] >
    self.drop_p] the left operand is a [float32] tensor, and torch
    converts the Python float on the right to [float32] before it
    compares. *)
Definition __iter__ (self : ModuleList) (rand : nat → float) : list Module_ :=
  let prob_dist :=
    if (0 <? drop_p self)%float && training self then Some rand else None in
  flat_map (λ '(idx, m),
      match prob_dist with
      | None => [m]
      | Some prob_dist =>
          if (to_float32 (drop_p self) <? prob_dist idx)%float then [m] else []
      end)
    (enumerate (modules self)).

End ModuleList.

End ModuleList.

(* ===================================================================== *)
(** * Properties of the configuration walk                                *)
(* ===================================================================== *)

Section ConfigProperties.

Import Config.

Variable type : loc → kls.
Variable is_dataclass : kls → bool.
Variable fields : kls → list string.
Variable _section_handlers : kls → option ConfigSectionHandler.

Local Abbreviation process := (process type is_dataclass fields _section_handlers).
Local Abbreviation dataclass_of := (dataclass_of type is_dataclass fields).
Local Abbreviation handled := (handled _section_handlers).
Local Abbreviation ranked := (ranked type is_dataclass fields).
Local Abbreviation handlers_keep :=
  (handlers_keep type is_dataclass fields _section_handlers).
Local Abbreviation preorder := (preorder type is_dataclass fields).
Local Abbreviation registered := (registered _section_handlers).

(** The body of the [for] loop of [process], as the source has it. *)
Local Abbreviation loop_body fuel config := (λ field : string,
  field_value ← getattr config field;
  try_except (process fuel field_value) (λ ex,
    match ex with
    | StructureError _ _ =>
        raise (StructureError (cannot_be_structured field) (Some ex))
    | _ => raise ex
    end)).

(** The [for] loop visits the fields from left to right. *)
Lemma for_each_fields fuel config flds s :
  for_each flds (loop_body fuel config) s
  = fields_in_order (process fuel) config flds s.
Proof.
  revert s. induction flds as [|f rest IH]; intros s; [done|].
  cbn [for_each fields_in_order].
  unfold mbind, M_bind, getattr, attr at 1.
  destruct (st_heap s !! config ≫= _) as [v|]; [|done].
  unfold try_except.
  destruct (process fuel v s) as [s' [[]|e|]]; [apply IH| |done].
  by destruct e.
Qed.

(** One level of [process]. *)
Lemma process_S fuel config s :
  process (S fuel) config s =
  match dataclass_of config with
  | None => (s, Val tt)
  | Some (k, flds) =>
      match handled k config s with
      | (s1, Val _) => fields_in_order (process fuel) config flds s1
      | r => r
      end
  end.
Proof.
  cbn [Config.process]. unfold Config.dataclass_of.
  destruct (is_dataclass (type config)); [|done]. cbn [negb].
  set (k := type config).
  unfold mbind at 1, M_bind at 1, Config.handled.
  destruct (_section_handlers k) as [h|].
  - unfold call. destruct (h config (st_heap s)) as [h' [e|]]; cbn; [done|].
    apply for_each_fields.
  - cbn. apply for_each_fields.
Qed.

(** The loop over a list of fields split in two runs the first part, then
    the second from the state the first part left. *)
Lemma fields_in_order_app visit config pre post s :
  fields_in_order visit config (pre ++ post) s =
  match fields_in_order visit config pre s with
  | (s', Val _) => fields_in_order visit config post s'
  | r => r
  end.
Proof.
  revert s. induction pre as [|f pre IH]; intros s; [done|].
  cbn [app fields_in_order].
  destruct (attr (st_heap s) config f) as [v|]; [|done].
  destruct (visit v s) as [s' [[]|e|]]; [apply IH|done..].
Qed.

(** A visit that returns under one way of visiting the values returns the
    same under any way of visiting that agrees with it wherever it
    returns. *)
Lemma fields_in_order_agree (visit1 visit2 : loc → state → state * res unit)
    config flds :
  (∀ v s s' r,
     visit1 v s = (s', r) → r ≠ RecursionError → visit2 v s = (s', r)) →
  ∀ s s' r,
    fields_in_order visit1 config flds s = (s', r) → r ≠ RecursionError →
    fields_in_order visit2 config flds s = (s', r).
Proof.
  intros Hagree. induction flds as [|f rest IH]; intros s s' r; [done|].
  cbn [fields_in_order].
  destruct (attr (st_heap s) config f) as [v|]; [|done].
  destruct (visit1 v s) as [s1 r1] eqn:Hv.
  destruct r1 as [[]|e|].
  - rewrite (Hagree _ _ _ _ Hv) by done. apply IH.
  - rewrite (Hagree _ _ _ _ Hv) by done. done.
  - intros [= <- <-] Hr. done.
Qed.

(** A higher recursion limit does not change a result. *)
Lemma process_fuel_mono fuel :
  ∀ config s s' r,
    process fuel config s = (s', r) → r ≠ RecursionError →
    ∀ fuel', fuel ≤ fuel' → process fuel' config s = (s', r).
Proof.
  induction fuel as [|fuel IH]; intros config s s' r Hp Hr fuel' Hle.
  - cbn in Hp. injection Hp as <- <-. done.
  - destruct fuel' as [|fuel']; [lia|].
    rewrite process_S in Hp |- *.
    destruct (dataclass_of config) as [[k flds]|]; [|done].
    destruct (handled k config s) as [s1 [[]|e|]]; [|done..].
    eapply fields_in_order_agree; [|done..].
    intros v t t' r' Hv Hr'. eapply IH; [done..|lia].
Qed.

(** The loop returns, and keeps the nesting bounded, when every visit of
    a value of smaller rank does. *)
Lemma fields_in_order_returns rank visit config k all :
  dataclass_of config = Some (k, all) →
  (∀ v s, ranked rank (st_heap s) → rank v < rank config →
     ∃ s' r, visit v s = (s', r) ∧ r ≠ RecursionError
             ∧ ranked rank (st_heap s')) →
  ∀ flds s, flds ⊆ all → ranked rank (st_heap s) →
    ∃ s' r, fields_in_order visit config flds s = (s', r) ∧ r ≠ RecursionError
            ∧ ranked rank (st_heap s').
Proof.
  intros Hdc Hvisit. induction flds as [|f rest IH]; intros s Hsub Hrk.
  - by exists s, (Val tt).
  - cbn [fields_in_order].
    destruct (attr (st_heap s) config f) as [v|] eqn:Hattr.
    + assert (rank v < rank config) as Hlt.
      { eapply Hrk; [exact Hdc| |exact Hattr]. apply Hsub. left. }
      destruct (Hvisit v s Hrk Hlt) as (s1 & r1 & -> & Hr1 & Hrk1).
      destruct r1 as [[]|e|]; [|by exists s1, (Exc (wrap f e))|done].
      apply IH; [|done]. intros x Hx. apply Hsub. by right.
    + by exists s, (Exc (AttributeError f)).
Qed.

(** [process] returns at a recursion limit of [rank config + 1]. *)
Lemma process_returns rank :
  handlers_keep rank →
  ∀ fuel config s, ranked rank (st_heap s) → rank config < fuel →
    ∃ s' r, process fuel config s = (s', r) ∧ r ≠ RecursionError
            ∧ ranked rank (st_heap s').
Proof.
  intros Hkeep. induction fuel as [|fuel IH]; intros config s Hrk Hlt; [lia|].
  rewrite process_S.
  destruct (dataclass_of config) as [[k flds]|] eqn:Hdc;
    [|by exists s, (Val tt)].
  unfold Config.handled.
  destruct (_section_handlers k) as [hd|] eqn:Hhd.
  - assert (type config = k) as Hty.
    { unfold Config.dataclass_of in Hdc.
      destruct (is_dataclass (type config)); naive_solver. }
    pose proof (Hkeep _ _ config _ Hhd Hty Hrk) as Hrk1.
    destruct (hd config (st_heap s)) as [h1 [e|]]; cbn in Hrk1 |- *.
    + by eexists _, (Exc e).
    + eapply fields_in_order_returns; [exact Hdc| |done|done].
      intros v t Ht Hv. apply IH; [done|lia].
  - eapply fields_in_order_returns; [exact Hdc| |done|done].
    intros v t Ht Hv. apply IH; [done|lia].
Qed.

(** X2. On a dataclass instance whose first field holds the instance
    itself, and whose class has no handler, [process] raises
    [RecursionError] whatever the recursion limit is: it never returns,
    calls no handler and leaves the heap as it was. *)
Lemma process_cyclic_recursion_error config k f rest s :
  dataclass_of config = Some (k, f :: rest) →
  _section_handlers k = None →
  attr (st_heap s) config f = Some config →
  ∀ fuel, process fuel config s = (s, RecursionError).
Proof.
  intros Hdc Hno Hself. induction fuel as [|fuel IH]; [done|].
  rewrite process_S, Hdc. unfold Config.handled. rewrite Hno.
  cbn [fields_in_order]. by rewrite Hself, IH.
Qed.

(** X1. With handlers that only check their section and accept it, on a
    heap where every field is set, the handlers are called on the
    dataclass instances in pre-order: an instance before the values of
    its fields, the fields in declaration order. *)
Lemma process_calls_preorder rank h :
  (∀ k hd config h', _section_handlers k = Some hd → hd config h' = (h', None)) →
  (∀ config k flds f,
     dataclass_of config = Some (k, flds) → f ∈ flds →
     is_Some (attr h config f)) →
  ranked rank h →
  ∀ fuel config calls, rank config < fuel →
    process fuel config (State h calls)
    = (State h (calls ++ registered (preorder fuel h config)), Val tt).
Proof.
  intros Hpure Hset Hrk.
  induction fuel as [|fuel IH]; intros config calls Hlt; [lia|].
  rewrite process_S. cbn [Config.preorder].
  destruct (dataclass_of config) as [[k all]|] eqn:Hdc;
    [|by rewrite app_nil_r].
  assert (∀ flds calls', flds ⊆ all →
    fields_in_order (process fuel) config flds (State h calls')
    = (State h (calls' ++ registered (flat_map
         (λ f, from_option (preorder fuel h) [] (attr h config f)) flds)),
       Val tt)) as Hloop.
  { induction flds as [|f rest IHf]; intros calls' Hsub.
    - by rewrite app_nil_r.
    - cbn [fields_in_order flat_map st_heap].
      assert (f ∈ all) as Hf by (apply Hsub; left).
      destruct (Hset _ _ _ _ Hdc Hf) as [v Hv]. rewrite Hv. cbn [from_option].
      rewrite IH by (specialize (Hrk _ _ _ _ _ Hdc Hf Hv); lia).
      rewrite IHf by (intros x Hx; apply Hsub; by right).
      unfold Config.registered. by rewrite filter_app, app_assoc. }
  unfold Config.handled, Config.registered. rewrite filter_cons. cbn [fst].
  destruct (_section_handlers k) as [hd|] eqn:Hhd.
  - rewrite decide_True by done. cbn [st_heap st_calls].
    rewrite (Hpure _ _ config h Hhd). cbn [fst snd].
    rewrite Hloop by done. by rewrite <- app_assoc.
  - rewrite decide_False by (by intros []). by apply Hloop.
Qed.

(** C1. [process] on an object that is not an instance of a dataclass
    returns at once and changes neither the heap nor the record of handler
    calls.  On an instance of dataclass [k] it first calls the handler
    registered for [k] itself, when there is one (and does nothing when
    there is none); if that call returns, it then processes the values of
    the fields of [k] one after the other, in declaration order. *)
Theorem process_walks_dataclass fuel config s :
  process (S fuel) config s =
  let k := type config in
  if is_dataclass k then
    match _section_handlers k with
    | None => fields_in_order (process fuel) config (fields k) s
    | Some section_handler =>
        let s1 := State (section_handler config (st_heap s)).1
                        (st_calls s ++ [(k, config)]) in
        match (section_handler config (st_heap s)).2 with
        | Some e => (s1, Exc e)
        | None => fields_in_order (process fuel) config (fields k) s1
        end
    end
  else (s, Val tt).
Proof.
  rewrite process_S. unfold Config.dataclass_of, Config.handled. cbn zeta.
  destruct (is_dataclass (type config)); [|done].
  destruct (_section_handlers (type config)) as [hd|]; [|done].
  by destruct (hd config (st_heap s)) as [h1 [e|]].
Qed.

(** C5. When processing the value of field [f] of a dataclass instance
    raises a [StructureError], [process] raises a new [StructureError]
    whose message names [f] and whose cause is the original error; any
    other exception raised there leaves [process] as it is. *)
Theorem process_field_error fuel config s k pre f post s1 s2 v s3 e :
  dataclass_of config = Some (k, pre ++ f :: post) →
  handled k config s = (s1, Val tt) →
  fields_in_order (process fuel) config pre s1 = (s2, Val tt) →
  attr (st_heap s2) config f = Some v →
  process fuel v s2 = (s3, Exc e) →
  process (S fuel) config s =
  (s3, Exc match e with
           | StructureError _ _ =>
               StructureError
                 ("`" +:+ f +:+
                  "` cannot be structured. See the nested exception for details.")
                 (Some e)
           | _ => e
           end).
Proof.
  intros Hdc Hh Hpre Hattr Hv.
  rewrite process_S, Hdc, Hh, fields_in_order_app, Hpre.
  cbn [fields_in_order]. rewrite Hattr, Hv. done.
Qed.


(** The loop relates the state it starts from to the state it ends in by
    any preorder that every visit respects. *)
Lemma fields_in_order_steps (R : state → state → Prop) visit config flds :
  Reflexive R → Transitive R →
  (∀ v s, R s (visit v s).1) →
  ∀ s, R s (fields_in_order visit config flds s).1.
Proof.
  intros Hrefl Htrans Hvisit. induction flds as [|f rest IH]; intros s; [done|].
  cbn [fields_in_order].
  destruct (attr (st_heap s) config f) as [v|]; [|done].
  pose proof (Hvisit v s) as Hv.
  destruct (visit v s) as [s1 [[]|e|]]; [|done..].
  etrans; [exact Hv|apply IH].
Qed.

(** The walk changes the state only through the calls of handlers, each
    on an instance of a dataclass and under the class of that instance:
    a preorder on states that every such call respects relates the state
    before the walk to the state after it, however the walk ends. *)
Lemma process_steps (R : state → state → Prop) :
  Reflexive R → Transitive R →
  (∀ k hd config s,
     _section_handlers k = Some hd → type config = k → is_dataclass k = true →
     R s (State (hd config (st_heap s)).1 (st_calls s ++ [(k, config)]))) →
  ∀ fuel config s, R s (process fuel config s).1.
Proof.
  intros Hrefl Htrans Hcall. induction fuel as [|fuel IH]; intros config s; [done|].
  rewrite process_S. unfold Config.dataclass_of.
  destruct (is_dataclass (type config)) eqn:Hdc; [|done].
  unfold Config.handled.
  destruct (_section_handlers (type config)) as [hd|] eqn:Hhd.
  - pose proof (Hcall _ _ config s Hhd eq_refl Hdc) as Hstep.
    destruct (hd config (st_heap s)) as [h1 [e|]]; cbn [fst snd] in *; [done|].
    etrans; [exact Hstep|]. by apply fields_in_order_steps.
  - by apply fields_in_order_steps.
Qed.

(** X3. Whatever the outcome of the walk, the handler calls it makes are
    added after the calls made before it, and each of them is the call of
    a registered handler on an instance of a dataclass, under the class
    of that very instance. *)
Theorem process_calls_instances fuel config s :
  ∃ new,
    st_calls (process fuel config s).1 = st_calls s ++ new
    ∧ Forall (λ c, type c.2 = c.1 ∧ is_dataclass c.1 = true
                   ∧ is_Some (_section_handlers c.1)) new.
Proof.
  apply (process_steps (λ s s', ∃ new,
           st_calls s' = st_calls s ++ new
           ∧ Forall (λ c, type c.2 = c.1 ∧ is_dataclass c.1 = true
                          ∧ is_Some (_section_handlers c.1)) new)).
  - intros t. exists []. by rewrite app_nil_r.
  - intros t1 t2 t3 (new1 & H1 & Hall1) (new2 & H2 & Hall2).
    exists (new1 ++ new2). rewrite H2, H1, app_assoc.
    split; [done|]. by apply Forall_app.
  - intros k hd c t Hhd Hty Hdc. exists [(k, c)]. split; [done|].
    apply Forall_singleton. cbn. by rewrite Hhd.
Qed.

(** X4. When no registered handler changes the heap (handlers that check
    their section, and accept or reject it), the walk leaves the heap as
    it found it, whether it returns or raises. *)
Theorem process_keeps_heap fuel config s :
  (∀ k hd c h, _section_handlers k = Some hd → (hd c h).1 = h) →
  st_heap (process fuel config s).1 = st_heap s.
Proof.
  intros Hpure.
  apply (process_steps (λ s s', st_heap s' = st_heap s)).
  - done.
  - intros t1 t2 t3 H1 H2. by rewrite H2.
  - intros k hd c t Hhd _ _. cbn. by apply (Hpure k).
Qed.

End ConfigProperties.

Section ConfigExampleProperties.

Import Config ConfigExample.

(** The dataclass instances of the example. *)
Lemma example_dataclass_of c k flds :
  dataclass_of type is_dataclass fields c = Some (k, flds) →
  (c = 1 ∧ k = "RecipeConfig" ∧ flds = ["model"; "dataset"])
  ∨ (c = 2 ∧ k = "ModelSection" ∧ flds = ["name"; "config"])
  ∨ (c = 3 ∧ k = "DatasetSection" ∧ flds = ["name"])
  ∨ (c = 4 ∧ k = "ModelConfig" ∧ flds = ["num_layers"]).
Proof.
  intros Hdc.
  do 14 (destruct c as [|c];
         [vm_compute in Hdc; try done; injection Hdc as <- <-; naive_solver|]).
  vm_compute in Hdc. done.
Qed.

(** The structuring handler of the example keeps the nesting bounded by
    the example's rank. *)
Lemma model_only_keeps_rank :
  handlers_keep type is_dataclass fields model_only rank.
Proof.
  intros k hd config h Hhd Hty Hrk. unfold model_only in Hhd.
  destruct (String.eqb k "ModelSection") eqn:Hk; [|done].
  injection Hhd as <-. apply String.eqb_eq in Hk as ->.
  assert (config = 2) as ->.
  { by do 14 (destruct config as [|config]; [done|]). }
  intros c k' flds f v Hdc Hf Hattr. cbn [structure_model fst] in Hattr.
  unfold attr in Hattr.
  destruct (example_dataclass_of _ _ _ Hdc)
    as [(-> & -> & ->)|[(-> & -> & ->)|[(-> & -> & ->)|(-> & -> & ->)]]].
  - rewrite !lookup_insert_ne in Hattr by done.
    apply (Hrk 1 "RecipeConfig" ["model"; "dataset"] f v); done.
  - rewrite lookup_insert_eq in Hattr. cbn in Hattr.
    apply elem_of_cons in Hf as [->|Hf].
    + rewrite lookup_insert_ne in Hattr by done.
      apply (Hrk 2 "ModelSection" ["name"; "config"] "name" v);
        [done|set_solver|].
      unfold attr. destruct (h !! _); [done|]. cbn in Hattr.
      by rewrite lookup_empty in Hattr.
    + apply list_elem_of_singleton in Hf as ->.
      rewrite lookup_insert_eq in Hattr. injection Hattr as <-. cbn. lia.
  - rewrite !lookup_insert_ne in Hattr by done.
    apply (Hrk 3 "DatasetSection" ["name"] f v); done.
  - rewrite lookup_insert_ne, lookup_insert_eq in Hattr by done. cbn in Hattr.
    apply list_elem_of_singleton in Hf as ->.
    rewrite lookup_singleton_eq in Hattr. injection Hattr as <-. cbn. lia.
Qed.

(** The nesting of the example recipe is bounded by the example's rank. *)
Lemma recipe_ranked : ranked type is_dataclass fields rank recipe.
Proof.
  intros c k flds f v Hdc Hf Hattr.
  destruct (example_dataclass_of _ _ _ Hdc)
    as [(-> & -> & ->)|[(-> & -> & ->)|[(-> & -> & ->)|(-> & -> & ->)]]];
    repeat (apply elem_of_cons in Hf as [->|Hf]);
    try (by apply elem_of_nil in Hf);
    vm_compute in Hattr; try done; injection Hattr as <-; cbn; lia.
Qed.

(** On the example recipe, with a handler that rejects the dataset section,
    the error leaves [process] wrapped once, under the name of the field
    of the recipe that holds the section. *)
Lemma process_field_error_witness :
  process type is_dataclass fields model_and_dataset 4 1 (State recipe []) =
  (State (structure_model 2 recipe).1
         [("ModelSection", 2); ("DatasetSection", 3)],
   Exc (StructureError
          "`dataset` cannot be structured. See the nested exception for details."
          (Some (StructureError "unknown dataset family" None)))).
Proof.
  apply (process_field_error type is_dataclass fields model_and_dataset
           3 1 (State recipe []) "RecipeConfig" ["model"] "dataset" []
           (State recipe [])
           (State (structure_model 2 recipe).1 [("ModelSection", 2)])
           3 _ (StructureError "unknown dataset family" None));
    vm_compute; reflexivity.
Defined.


(** The nesting of the structured recipe is bounded by the example's
    rank. *)
Lemma structured_recipe_ranked :
  ranked type is_dataclass fields rank structured_recipe.
Proof.
  apply (model_only_keeps_rank "ModelSection" structure_model 2 recipe);
    [done..|apply recipe_ranked].
Qed.

(** On the structured recipe, handlers that only check are called on the
    two sections, the model section first. *)
Lemma process_calls_preorder_witness :
  process type is_dataclass fields checks_only 4 1 (State structured_recipe [])
  = (State structured_recipe [("ModelSection", 2); ("DatasetSection", 3)], Val tt).
Proof.
  apply (process_calls_preorder type is_dataclass fields checks_only rank
           structured_recipe).
  - intros k hd config h Hhd. unfold checks_only in Hhd.
    destruct (String.eqb k "ModelSection"); [by injection Hhd as <-|].
    destruct (String.eqb k "DatasetSection"); [by injection Hhd as <-|done].
  - intros c k flds f Hdc Hf.
    destruct (example_dataclass_of _ _ _ Hdc)
      as [(-> & -> & ->)|[(-> & -> & ->)|[(-> & -> & ->)|(-> & -> & ->)]]];
      repeat (apply elem_of_cons in Hf as [->|Hf]);
      try (by apply elem_of_nil in Hf); vm_compute; by eexists.
  - apply structured_recipe_ranked.
  - cbn. lia.
Defined.

(** The walk of the example recipe, run. *)
Example process_recipe :
  let r := process type is_dataclass fields model_only 4 1 (State recipe []) in
  r.2 = Val tt ∧ st_calls r.1 = [("ModelSection", 2)]
  ∧ attr (st_heap r.1) 2 "config" = Some 4.
Proof. vm_compute. done. Qed.

(** A recipe that holds itself in its first field: at a recursion limit
    of a thousand nested calls the walk raises [RecursionError]. *)
Lemma process_cyclic_recursion_error_witness :
  process type is_dataclass fields (λ _, None) 1000 1
    (State {[ 1 := {[ "model" := 1; "dataset" := 3 ]} ]} [])
  = (State {[ 1 := {[ "model" := 1; "dataset" := 3 ]} ]} [], RecursionError).
Proof.
  by apply (process_cyclic_recursion_error type is_dataclass fields (λ _, None)
              1 "RecipeConfig" "model" ["dataset"]).
Defined.

(** Handlers that only check leave the structured recipe as it is. *)
Lemma process_keeps_heap_witness :
  st_heap (process type is_dataclass fields checks_only 4 1
             (State structured_recipe [])).1
  = structured_recipe.
Proof.
  apply (process_keeps_heap type is_dataclass fields checks_only 4 1
           (State structured_recipe [])).
  intros k hd c h Hhd. unfold checks_only in Hhd.
  destruct (String.eqb k "ModelSection"); [by injection Hhd as <-|].
  destruct (String.eqb k "DatasetSection"); [by injection Hhd as <-|done].
Defined.

End ConfigExampleProperties.

Section ConfigNestingProperties.

Import Config ConfigNesting.

Local Abbreviation process := (process type is_dataclass fields handlers).

(** A handler that nests a new section under its section at each call
    keeps the walk descending: on every [Node], in every heap that holds
    [None], the walk raises [RecursionError] whatever the recursion limit
    is. *)
Lemma process_nest fuel :
  ∀ config h calls, config ≠ 1 → 1 ∈ dom h →
    (process fuel config (State h calls)).2 = RecursionError.
Proof.
  induction fuel as [|fuel IH]; intros config h calls Hnode Hnone; [done|].
  rewrite process_S.
  assert (dataclass_of type is_dataclass fields config = Some ("Node", ["child"]))
    as -> by (by destruct config as [|[|config]]).
  unfold handled. change (handlers "Node") with (Some nest).
  cbn [nest fst snd st_heap st_calls].
  set (child := fresh (dom h)).
  assert (child ≠ 1) as Hchild.
  { intros Heq. apply (is_fresh (dom h)). fold child. by rewrite Heq. }
  cbn [fields_in_order st_heap]. unfold attr at 1.
  rewrite lookup_insert_eq. cbn. rewrite lookup_insert_eq.
  match goal with
  | |- context [process fuel child (State ?h' ?calls')] =>
      pose proof (IH child h' calls' Hchild) as Hdeep;
      destruct (process fuel child (State h' calls')) as [s' r]
  end.
  cbn in Hdeep. rewrite Hdeep; [done|].
  rewrite !dom_insert_L. set_solver.
Qed.

(** The single [Node()] is finite and not cyclic: its nesting is bounded. *)
Lemma node_ranked : ranked type is_dataclass fields rank node.
Proof.
  intros config k flds f v Hdc Hf Hattr. unfold attr, node in Hattr.
  destruct config as [|[|config]].
  - rewrite lookup_insert_eq in Hattr. cbn in Hattr.
    apply lookup_singleton_Some in Hattr as [_ <-]. cbn. lia.
  - done.
  - by rewrite lookup_insert_ne, lookup_singleton_ne in Hattr.
Qed.


End ConfigNestingProperties.

(* ===================================================================== *)
(** * Properties of the tokenizer family handler                          *)
(* ===================================================================== *)

Section TokenizerProperties.

Import Tokenizers.

Context {Tokenizer FileSystem : Type}.
Variable issubclass : kls → kls → bool.
Variable construct : kls → res object.
Variable operational_system_error : exn → exn.

Local Abbreviation Handler := (@StandardTokenizerFamilyHandler Tokenizer FileSystem).
Local Abbreviation Container := (@DependencyContainer Tokenizer FileSystem).
Local Abbreviation load_tokenizer :=
  (load_tokenizer issubclass construct operational_system_error).
Local Abbreviation translated := (translated operational_system_error).
Local Abbreviation load_configuration := (load_configuration issubclass construct).
Local Abbreviation load_custom_tokenizer := (load_custom_tokenizer issubclass).
Local Abbreviation isinstance := (isinstance issubclass).

(** [load_tokenizer] on a card whose tokenizer has a supported scheme,
    when the download and the configuration succeed: the loader is called
    once, on the downloaded path and that configuration, and an exception
    it raises goes through the [except] clauses. *)
Lemma load_tokenizer_loads (self : Handler) card config progress
    uri path cfg custom log log' :
  card_tokenizer_uri card = Val uri →
  scheme uri ∈ supported_schemes (_asset_download_manager self) →
  download_tokenizer (_asset_download_manager self) uri (card_name card) progress
    = Val path →
  load_configuration self card config
    (log ++ [Download uri (card_name card) progress]) = (log', Val (cfg, custom)) →
  load_tokenizer self card config progress log =
  (log' ++ [Load path cfg],
   match _loader self path cfg with
   | Val t => Val t
   | Exc ex => Exc (translated self (card_name card) uri path custom ex)
   end).
Proof.
  intros Huri Hs Hd Hc. unfold Tokenizers.load_tokenizer.
  unfold mbind at 1, M_bind at 1, pure at 1. rewrite Huri.
  rewrite bool_decide_eq_true_2 by done. cbn [negb].
  unfold mbind at 1, M_bind at 1, perform at 1. rewrite Hd.
  unfold mbind at 1, M_bind at 1. rewrite Hc.
  unfold try_except, perform, Tokenizers.translated, raise_operational_system_error, raise.
  destruct (_loader self path cfg) as [t|ex]; [done|].
  destruct ex; try done.
  - by destruct custom.
  - by destruct (String.eqb (scheme uri) "file").
Qed.

(** [load_tokenizer] stops at a configuration that cannot be had, after
    the download and before the loader is called. *)
Lemma load_tokenizer_no_configuration (self : Handler) card config progress
    uri path e log log' :
  card_tokenizer_uri card = Val uri →
  scheme uri ∈ supported_schemes (_asset_download_manager self) →
  download_tokenizer (_asset_download_manager self) uri (card_name card) progress
    = Val path →
  load_configuration self card config
    (log ++ [Download uri (card_name card) progress]) = (log', Exc e) →
  load_tokenizer self card config progress log = (log', Exc e).
Proof.
  intros Huri Hs Hd Hc. unfold Tokenizers.load_tokenizer.
  unfold mbind at 1, M_bind at 1, pure at 1. rewrite Huri.
  rewrite bool_decide_eq_true_2 by done. cbn [negb].
  unfold mbind at 1, M_bind at 1, perform at 1. rewrite Hd.
  unfold mbind at 1, M_bind at 1. by rewrite Hc.
Qed.

(** A configuration passed by the caller is used as it is when it is an
    instance of the configuration class of the family, and refused with a
    [TypeError] otherwise. *)
Lemma load_configuration_custom (self : Handler) card cfg log :
  load_configuration self card (Some cfg) log =
  if isinstance cfg (_config_kls self) then (log, Val (cfg, true))
  else (log, Exc (TypeError (must_be_of_type (_config_kls self) cfg))).
Proof.
  unfold Tokenizers.load_configuration.
  by destruct (Tokenizers.isinstance _ _ _).
Qed.

(** Without a configuration from the caller, the configuration is the one
    of the asset card, and it is not a custom one. *)
Lemma load_configuration_card (self : Handler) card log :
  load_configuration self card None log =
  match get_tokenizer_config construct self card log with
  | (log', Val cfg) => (log', Val (cfg, false))
  | (log', Exc e) => (log', Exc e)
  end.
Proof.
  unfold Tokenizers.load_configuration, mbind, M_bind.
  by destruct (get_tokenizer_config _ _ _ _) as [log' [cfg|e]].
Qed.

(** X10. The factory is called twice with an advanced loader: the first
    call stores the loader it builds in the shared [loader] variable, and
    the second call then finds both variables set and raises. *)
Remark create_handler_advanced_twice (env : @closure Tokenizer FileSystem)
    resolver advanced_loader :
  cl_loader env = None →
  cl_advanced_loader env = Some advanced_loader →
  (create_handler (create_handler env resolver).1 resolver).2 =
  Exc (ValueError
         "`loader` and `advanced_loader` must not be specified at the same time.").
Proof.
  intros Hl Ha. unfold create_handler at 2. rewrite Ha, Hl. cbn [fst].
  unfold create_handler. cbn. by rewrite Ha.
Qed.

(** A factory registered with an advanced loader builds, at its first
    call, a handler whose loader passes the resolver on to the advanced
    loader. *)
Remark create_handler_advanced (env : @closure Tokenizer FileSystem)
    (container : Container) advanced_loader fs dm cl :
  cl_loader env = None →
  cl_advanced_loader env = Some advanced_loader →
  c_file_system container = Some fs →
  c_asset_download_manager container = Some dm →
  c_asset_config_loader container = Some cl →
  ∃ handler : Handler,
    (create_handler env (resolver_of container)).2 = Val handler
    ∧ Tokenizers.family handler = cl_family env
    ∧ Tokenizers.config_kls handler = cl_config_kls env
    ∧ ∀ path config,
        _loader handler path config
        = advanced_loader (resolver_of container) path config.
Proof.
  intros Hl Ha Hfs Hdm Hcl. unfold create_handler, resolver_of.
  rewrite Ha, Hl, Hfs, Hdm, Hcl. cbn. by eexists.
Qed.

(** Reading the configuration of the card adds at most one call to the
    record, a [LoadConfig]. *)
Lemma get_tokenizer_config_calls (self : Handler) card log :
  (get_tokenizer_config construct self card log).1 = log
  ∨ ∃ d key, (get_tokenizer_config construct self card log).1
             = log ++ [LoadConfig (card_name card) d key].
Proof.
  unfold get_tokenizer_config, mbind, M_bind, try_except, pure, perform, raise.
  destruct (construct (_config_kls self)) as [d|e]; [right; by eexists _, _|].
  left. by destruct e.
Qed.

(** X5. Whatever its arguments and outcome, [load_tokenizer] adds to the
    record of calls at most one download, then at most one read of the
    configuration of the card, then at most one call of the loader, in
    this order: nothing is read or loaded without a download before it.
    With a configuration from the caller the configuration of the card is
    not read. *)
Theorem load_tokenizer_calls (self : Handler) card config progress log :
  ∃ new,
    (load_tokenizer self card config progress log).1 = log ++ new
    ∧ calls_in_order new = true
    ∧ (is_Some config → Forall (λ c, is_LoadConfig c = false) new).
Proof.
  unfold Tokenizers.load_tokenizer.
  unfold mbind at 1, M_bind at 1, pure at 1.
  destruct (card_tokenizer_uri card) as [uri|e];
    [|exists []; by rewrite app_nil_r].
  destruct (bool_decide _); cbn [negb];
    [|exists []; by rewrite app_nil_r].
  unfold mbind at 1, M_bind at 1, perform at 1.
  set (download := Download uri (card_name card) progress).
  destruct (download_tokenizer _ _ _ _) as [path|e];
    [|exists [download]; split; [done|split; [done|by repeat constructor]]].
  unfold mbind at 1, M_bind at 1.
  assert (∀ log' cfg custom,
    (try_except (perform (Load path cfg) (_loader self path cfg)) (λ ex,
       match ex with
       | ValueError _ =>
           if custom : bool then raise ex
           else raise (AssetCardError (card_name card)
                         ("tokenizer_config field of the " +:+ card_name card +:+
                          " asset card is not a valid " +:+ _family self +:+
                          " tokenizer configuration.") (Some ex))
       | TokenizerModelError _ _ =>
           raise (AssetCardError (card_name card)
                    ("Tokenizer model of the " +:+ card_name card +:+
                     " asset card cannot be loaded.") (Some ex))
       | FileNotFoundError _ =>
           if negb (String.eqb (scheme uri) "file") then
             raise_operational_system_error operational_system_error ex
           else
             raise (AssetCardError (card_name card)
                      (path +:+ " pointed to by the tokenizer field of the " +:+
                       card_name card +:+ " asset card is not found.") None)
       | OSError _ => raise_operational_system_error operational_system_error ex
       | _ => raise ex
       end) log').1 = log' ++ [Load path cfg]) as Hload.
  { intros log' cfg custom. unfold try_except, perform.
    destruct (_loader self path cfg) as [t|[]]; cbn; try done.
    - by destruct custom.
    - by destruct (negb _). }
  destruct config as [cfg|].
  - rewrite load_configuration_custom.
    destruct (isinstance cfg (_config_kls self)).
    + exists [download; Load path cfg].
      split; [|split; [done|by repeat constructor]].
      etrans; [apply (Hload _ cfg true)|by rewrite <- app_assoc].
    + exists [download]. split; [done|split; [done|by repeat constructor]].
  - rewrite load_configuration_card.
    destruct (get_tokenizer_config_calls self card (log ++ [download]))
      as [Hg|(d & key & Hg)];
      destruct (get_tokenizer_config construct self card (log ++ [download]))
        as [log2 [cfg|e]]; cbn [fst] in Hg; subst log2.
    + exists [download; Load path cfg]. split; [|split; [done|by intros []]].
      etrans; [apply (Hload _ cfg false)|by rewrite <- app_assoc].
    + exists [download]. split; [done|split; [done|by intros []]].
    + exists [download; LoadConfig (card_name card) d key; Load path cfg].
      split; [|split; [done|by intros []]].
      etrans; [apply (Hload _ cfg false)|by rewrite <- !app_assoc].
    + exists [download; LoadConfig (card_name card) d key].
      split; [|split; [done|by intros []]]. by rewrite <- app_assoc.
Qed.

(** X21. When no default configuration can be constructed for the family
    (the class cannot be called without argument), [load_tokenizer]
    without a configuration from the caller raises an [InternalError]
    from the [TypeError], after the download; neither the configuration
    of the card is read nor the loader called. *)
Theorem load_tokenizer_no_default_config (self : Handler) card progress
    uri path log msg :
  card_tokenizer_uri card = Val uri →
  scheme uri ∈ supported_schemes (_asset_download_manager self) →
  download_tokenizer (_asset_download_manager self) uri (card_name card) progress
    = Val path →
  construct (_config_kls self) = Exc (TypeError msg) →
  load_tokenizer self card None progress log =
  (log ++ [Download uri (card_name card) progress],
   Exc (InternalError
          ("Default configuration of the " +:+ family self +:+
           " tokenizer family cannot be constructed.")
          (Some (TypeError msg)))).
Proof.
  intros Hu Hs Hd Hc. eapply load_tokenizer_no_configuration; [done..|].
  rewrite load_configuration_card.
  unfold get_tokenizer_config, mbind, M_bind, try_except, pure.
  by rewrite Hc.
Qed.

(** X6. Only the exceptions of the loader are translated.  An exception
    raised while the card is read leaves [load_tokenizer] unchanged, with
    no call made; an exception of the download (an [OSError] as any
    other) leaves it unchanged after the download; an exception raised
    while the configuration is made or read (the [ValueError] of a
    malformed card as any other) leaves it unchanged, before the loader
    is called. *)
Theorem load_tokenizer_passes_errors (self : Handler) card config progress log :
  match card_tokenizer_uri card with
  | Exc e => load_tokenizer self card config progress log = (log, Exc e)
  | Val uri =>
      scheme uri ∈ supported_schemes (_asset_download_manager self) →
      let log1 := log ++ [Download uri (card_name card) progress] in
      match download_tokenizer (_asset_download_manager self) uri
              (card_name card) progress with
      | Exc e => load_tokenizer self card config progress log = (log1, Exc e)
      | Val path =>
          ∀ log2 e,
            load_configuration self card config log1 = (log2, Exc e) →
            load_tokenizer self card config progress log = (log2, Exc e)
      end
  end.
Proof.
  destruct (card_tokenizer_uri card) as [uri|e] eqn:Hu.
  - intros Hs log1.
    destruct (download_tokenizer _ _ _ _) as [path|e] eqn:Hd.
    + intros log2 e Hc. by eapply load_tokenizer_no_configuration.
    + unfold Tokenizers.load_tokenizer.
      unfold mbind at 1, M_bind at 1, pure at 1. rewrite Hu.
      rewrite bool_decide_eq_true_2 by done. cbn [negb].
      unfold mbind at 1, M_bind at 1, perform at 1. by rewrite Hd.
  - unfold Tokenizers.load_tokenizer.
    unfold mbind at 1, M_bind at 1, pure at 1. by rewrite Hu.
Qed.

(** X7. With a configuration from the caller, [load_tokenizer] depends
    neither on how a default configuration is constructed nor on the
    [AssetConfigLoader] of the handler: the configuration of the card
    plays no part. *)
Theorem load_tokenizer_custom_ignores_card (self : Handler) card cfg progress log
    construct' asset_config_loader' :
  load_tokenizer self card (Some cfg) progress log
  = Tokenizers.load_tokenizer issubclass construct' operational_system_error
      (with_asset_config_loader self asset_config_loader')
      card (Some cfg) progress log.
Proof.
  unfold Tokenizers.load_tokenizer, Tokenizers.load_configuration,
    with_asset_config_loader.
  by cbn [_family _config_kls _loader _asset_download_manager].
Qed.

(** X8. With a configuration from the caller, [load_tokenizer] is the
    download followed by [load_custom_tokenizer] on the downloaded path,
    with the exceptions of the latter translated. *)
Theorem load_tokenizer_custom_composes (self : Handler) card cfg progress
    uri path log :
  card_tokenizer_uri card = Val uri →
  scheme uri ∈ supported_schemes (_asset_download_manager self) →
  download_tokenizer (_asset_download_manager self) uri (card_name card) progress
    = Val path →
  load_tokenizer self card (Some cfg) progress log =
  let r := load_custom_tokenizer self path cfg
             (log ++ [Download uri (card_name card) progress]) in
  (r.1,
   match r.2 with
   | Val t => Val t
   | Exc ex => Exc (translated self (card_name card) uri path true ex)
   end).
Proof.
  intros Hu Hs Hd. cbn zeta.
  pose proof (load_configuration_custom self card cfg
                (log ++ [Download uri (card_name card) progress])) as Hc.
  unfold Tokenizers.load_custom_tokenizer. fold (isinstance cfg (_config_kls self)).
  destruct (isinstance cfg (_config_kls self)); cbn [negb].
  - by erewrite load_tokenizer_loads.
  - by erewrite load_tokenizer_no_configuration.
Qed.

(** X9. The factory returns a handler exactly when one of [loader] and
    [advanced_loader] is given, not both, and the three services of a
    handler can be resolved. *)
Theorem create_handler_succeeds_iff (env : @closure Tokenizer FileSystem)
    resolver :
  (∃ handler, (create_handler env resolver).2 = Val handler)
  ↔ (is_Some (cl_loader env) ↔ ¬ is_Some (cl_advanced_loader env))
    ∧ (∃ fs, resolve_FileSystem resolver = Val fs)
    ∧ (∃ dm, resolve_AssetDownloadManager resolver = Val dm)
    ∧ (∃ cl, resolve_AssetConfigLoader resolver = Val cl).
Proof.
  assert ((is_Some (cl_loader env) ↔ ¬ is_Some (cl_advanced_loader env))
          ↔ match cl_advanced_loader env, cl_loader env with
            | Some _, None | None, Some _ => True
            | _, _ => False
            end) as ->.
  { destruct (cl_advanced_loader env), (cl_loader env);
      rewrite ?is_Some_alt; naive_solver. }
  unfold create_handler.
  destruct (cl_advanced_loader env) as [a|], (cl_loader env) as [l|],
    (resolve_FileSystem resolver) as [fs|e1],
    (resolve_AssetDownloadManager resolver) as [dm|e2],
    (resolve_AssetConfigLoader resolver) as [cl|e3]; cbn; naive_solver.
Qed.

(** C2.  On a container in which [FileSystem], [AssetDownloadManager] and
    [AssetConfigLoader] are registered, after
    [register_tokenizer_family(container, family, config_kls, ...)] with
    exactly one of [loader] and [advanced_loader], resolving
    [TokenizerFamilyHandler] under key [family] yields a handler whose
    [family] is [family], whose [config_kls] is [config_kls], and that
    loads with [L]: the loader itself when [loader] was given, and the
    advanced loader applied to the resolver when [advanced_loader] was
    given.  [load_custom_tokenizer] returns what [L] returns, and so does
    [load_tokenizer] when [L] returns.  With [loader] the resolve leaves
    the container as it was, so every resolve yields this handler; with
    [advanced_loader] the resolve is the first one after the
    registration. *)
Theorem register_tokenizer_family_resolves (container : Container)
    family config_kls loader advanced_loader (L : TokenizerLoader) fs dm cl :
  c_file_system container = Some fs →
  c_asset_download_manager container = Some dm →
  c_asset_config_loader container = Some cl →
  let container' :=
    register_tokenizer_family container family config_kls loader advanced_loader in
  loader = Some L ∧ advanced_loader = None
  ∨ loader = None
    ∧ (∃ A, advanced_loader = Some A
            ∧ L = λ path config, A (resolver_of container') path config) →
  ∃ (handler : Handler) container'',
    resolve_TokenizerFamilyHandler container' family = (container'', Val handler)
    ∧ (advanced_loader = None → container'' = container')
    ∧ Tokenizers.family handler = family
    ∧ Tokenizers.config_kls handler = config_kls
    ∧ _loader handler = L
    ∧ (∀ path config log,
         isinstance config config_kls = true →
         load_custom_tokenizer handler path config log
         = (log ++ [Load path config], L path config))
    ∧ (∀ card config progress uri path cfg custom log log' t,
         card_tokenizer_uri card = Val uri →
         scheme uri ∈ supported_schemes dm →
         download_tokenizer dm uri (card_name card) progress = Val path →
         load_configuration handler card config
           (log ++ [Download uri (card_name card) progress])
           = (log', Val (cfg, custom)) →
         L path cfg = Val t →
         load_tokenizer handler card config progress log
         = (log' ++ [Load path cfg], Val t)).
Proof.
  intros Hfs Hdm Hcl container' Hone.
  exists {| _family := family; _config_kls := config_kls; _loader := L;
            _file_system := fs; _asset_download_manager := dm;
            _asset_config_loader := cl |}.
  assert (∃ container'',
    resolve_TokenizerFamilyHandler container' family
    = (container'',
       Val {| _family := family; _config_kls := config_kls; _loader := L;
              _file_system := fs; _asset_download_manager := dm;
              _asset_config_loader := cl |})
    ∧ (advanced_loader = None → container'' = container')) as (c'' & Hres & Hsame).
  { unfold resolve_TokenizerFamilyHandler, container',
      register_tokenizer_family, register_TokenizerFamilyHandler.
    cbn [c_tokenizer_family_handlers set_factories].
    rewrite lookup_insert_eq.
    destruct Hone as [[-> ->]|(-> & A & -> & ->)];
      unfold create_handler, resolver_of; cbn; rewrite Hfs, Hdm, Hcl; cbn.
    - eexists. split; [done|]. intros _.
      unfold set_factories. cbn. by rewrite insert_insert_eq.
    - eexists. split; [done|]. done. }
  exists c''.
  split; [done|split; [done|split; [done|split; [done|split; [done|split]]]]].
  - intros path config log Hinst. unfold Tokenizers.load_custom_tokenizer.
    cbn [_config_kls _loader]. by rewrite Hinst.
  - intros card config progress uri path cfg custom log log' t Hu Hs Hd Hc HL.
    erewrite load_tokenizer_loads; [|done..]. cbn [_loader]. by rewrite HL.
Qed.

(** C3. A [ValueError] raised by the loader leaves [load_tokenizer] as an
    [AssetCardError] naming the card, raised from it, when the caller
    passed no configuration, and unchanged when the caller passed its own.
    A configuration of the caller that is not an instance of the
    configuration class of the family is refused with a [TypeError]
    before the loader is called. *)
Theorem load_tokenizer_value_error (self : Handler) card config progress
    uri path log msg :
  card_tokenizer_uri card = Val uri →
  scheme uri ∈ supported_schemes (_asset_download_manager self) →
  download_tokenizer (_asset_download_manager self) uri (card_name card) progress
    = Val path →
  let name := card_name card in
  let log1 := log ++ [Download uri name progress] in
  match config with
  | None =>
      ∀ cfg log2,
        get_tokenizer_config construct self card log1 = (log2, Val cfg) →
        _loader self path cfg = Exc (ValueError msg) →
        load_tokenizer self card None progress log =
        (log2 ++ [Load path cfg],
         Exc (AssetCardError name
                ("tokenizer_config field of the " +:+ name +:+
                 " asset card is not a valid " +:+ family self +:+
                 " tokenizer configuration.")
                (Some (ValueError msg))))
  | Some cfg =>
      if isinstance cfg (config_kls self) then
        _loader self path cfg = Exc (ValueError msg) →
        load_tokenizer self card (Some cfg) progress log =
        (log1 ++ [Load path cfg], Exc (ValueError msg))
      else
        load_tokenizer self card (Some cfg) progress log =
        (log1, Exc (TypeError (must_be_of_type (config_kls self) cfg)))
  end.
Proof.
  intros Hu Hs Hd name log1. destruct config as [cfg|].
  - pose proof (load_configuration_custom self card cfg log1) as Hc.
    unfold config_kls.
    destruct (isinstance cfg (_config_kls self)).
    + intros HL. erewrite load_tokenizer_loads; [|done..]. by rewrite HL.
    + by erewrite load_tokenizer_no_configuration.
  - intros cfg log2 Hg HL.
    pose proof (load_configuration_card self card log1) as Hc.
    rewrite Hg in Hc.
    erewrite load_tokenizer_loads; [|done..]. by rewrite HL.
Qed.

(** C4. A [TokenizerModelError] raised by the loader leaves
    [load_tokenizer] as an [AssetCardError] naming the card.  A
    [FileNotFoundError] does so exactly when the scheme of the tokenizer
    URI is [file], and is otherwise raised again as an operational system
    error, as any other [OSError] is.  A scheme that the download manager
    does not support is refused with an [AssetCardError] before anything
    is downloaded. *)
Theorem load_tokenizer_asset_errors (self : Handler) card config progress
    uri log :
  card_tokenizer_uri card = Val uri →
  let name := card_name card in
  if bool_decide (scheme uri ∈ supported_schemes (_asset_download_manager self))
  then
    ∀ path cfg custom log' ex,
      download_tokenizer (_asset_download_manager self) uri name progress
        = Val path →
      load_configuration self card config (log ++ [Download uri name progress])
        = (log', Val (cfg, custom)) →
      _loader self path cfg = Exc ex →
      match ex with
      | TokenizerModelError _ _ =>
          load_tokenizer self card config progress log =
          (log' ++ [Load path cfg],
           Exc (AssetCardError name
                  ("Tokenizer model of the " +:+ name +:+
                   " asset card cannot be loaded.")
                  (Some ex)))
      | FileNotFoundError _ =>
          load_tokenizer self card config progress log =
          (log' ++ [Load path cfg],
           Exc (if String.eqb (scheme uri) "file" then
                  AssetCardError name
                    (path +:+ " pointed to by the tokenizer field of the " +:+
                     name +:+ " asset card is not found.")
                    None
                else operational_system_error ex))
      | OSError _ =>
          load_tokenizer self card config progress log =
          (log' ++ [Load path cfg], Exc (operational_system_error ex))
      | _ => True
      end
  else
    load_tokenizer self card config progress log =
    (log,
     Exc (AssetCardError name
            ("tokenizer URI scheme of the " +:+ name +:+
             " asset card is expected to be a supported scheme, but is " +:+
             scheme uri +:+ " instead.")
            None)).
Proof.
  intros Hu name. case_bool_decide as Hs.
  - intros path cfg custom log' ex Hd Hc HL.
    pose proof (load_tokenizer_loads self card config progress
                  uri path cfg custom log log' Hu Hs Hd Hc) as Hload.
    rewrite HL in Hload. by destruct ex.
  - unfold Tokenizers.load_tokenizer.
    unfold mbind at 1, M_bind at 1, pure at 1. rewrite Hu.
    by rewrite bool_decide_eq_false_2.
Qed.

End TokenizerProperties.

Section TokenizerExampleProperties.

Import Tokenizers TokenizersExample.

Local Abbreviation load_tokenizer :=
  (load_tokenizer issubclass construct operational_system_error).

Local Abbreviation https := {| scheme := "https"; uri_rest := "tok.model" |}.
Local Abbreviation file := {| scheme := "file"; uri_rest := "tok.model" |}.
Local Abbreviation default_config :=
  {| obj_type := "CharTokenizerConfig"; obj_repr := "default" |}.

Lemma https_supported : "https" ∈ supported_schemes download_manager.
Proof. cbn. set_solver. Qed.

Lemma file_supported : "file" ∈ supported_schemes download_manager.
Proof. cbn. set_solver. Qed.

Lemma s3_not_supported : "s3" ∉ supported_schemes download_manager.
Proof. cbn. rewrite elem_of_union, !elem_of_singleton. by intros [|]. Qed.

(** The family of the example, registered in the example container with
    its loader, and registered with its advanced loader, and resolved. *)
Lemma register_tokenizer_family_resolves_witness :
  (∃ handler,
     (resolve_TokenizerFamilyHandler
        (register_tokenizer_family container "char" "CharTokenizerConfig"
           (Some loader) None) "char").2 = Val handler
     ∧ family handler = "char"
     ∧ config_kls handler = "CharTokenizerConfig"
     ∧ load_custom_tokenizer issubclass handler "/models/tok.model"
         (config "plain") []
       = ([Load "/models/tok.model" (config "plain")],
          Val "tokenizer at /models/tok.model"))
  ∧ (∃ handler,
       (resolve_TokenizerFamilyHandler
          (register_tokenizer_family container "char" "CharTokenizerConfig"
             None (Some advanced_loader)) "char").2 = Val handler
       ∧ family handler = "char"
       ∧ config_kls handler = "CharTokenizerConfig"
       ∧ load_custom_tokenizer issubclass handler "/models/tok.model"
           (config "plain") []
         = ([Load "/models/tok.model" (config "plain")],
            Val "tokenizer at /models/tok.model")).
Proof.
  split.
  - destruct (register_tokenizer_family_resolves issubclass construct
                operational_system_error container "char" "CharTokenizerConfig"
                (Some loader) None loader tt download_manager config_loader
                eq_refl eq_refl eq_refl (or_introl (conj eq_refl eq_refl)))
      as (handler & c & Hres & _ & Hfam & Hkls & _ & Hcustom & _).
    exists handler. rewrite Hres. repeat split; [done..|].
    by rewrite Hcustom.
  - destruct (register_tokenizer_family_resolves issubclass construct
                operational_system_error container "char" "CharTokenizerConfig"
                None (Some advanced_loader) _ tt download_manager config_loader
                eq_refl eq_refl eq_refl
                (or_intror (conj eq_refl
                   (ex_intro _ advanced_loader (conj eq_refl eq_refl)))))
      as (handler & c & Hres & _ & Hfam & Hkls & _ & Hcustom & _).
    exists handler. rewrite Hres. repeat split; [done..|].
    by rewrite Hcustom.
Defined.

(** C2, counterexample.  Registering with exactly one loader is not enough
    for every resolve to yield a handler.  Registered with its advanced
    loader in the example container, the family is resolved once; the
    second resolve raises [ValueError].  Registered with its loader in a
    container that holds no service, it cannot be resolved at all. *)
Lemma register_tokenizer_family_resolves_counterexample :
  let advanced :=
    register_tokenizer_family container "char" "CharTokenizerConfig"
      None (Some advanced_loader) in
  let bare :=
    register_tokenizer_family empty_container "char" "CharTokenizerConfig"
      (Some loader) None in
  (∃ handler, (resolve_TokenizerFamilyHandler advanced "char").2 = Val handler)
  ∧ (resolve_TokenizerFamilyHandler
       (resolve_TokenizerFamilyHandler advanced "char").1 "char").2
    = Exc (ValueError
             "`loader` and `advanced_loader` must not be specified at the same time.")
  ∧ (resolve_TokenizerFamilyHandler bare "char").2
    = Exc (DependencyNotFoundError "FileSystem").
Proof.
  cbn zeta. split; [by eexists|]. split; by vm_compute.
Qed.

(** The factory of the example family, registered with the advanced
    loader: its first call on the example container returns a handler. *)
Example create_handler_advanced_example :
  ∃ handler,
    (create_handler
       {| cl_family := "char"; cl_config_kls := "CharTokenizerConfig";
          cl_loader := None; cl_advanced_loader := Some advanced_loader |}
       (resolver_of container)).2 = Val handler
    ∧ family handler = "char".
Proof.
  destruct (create_handler_advanced
              {| cl_family := "char"; cl_config_kls := "CharTokenizerConfig";
                 cl_loader := None; cl_advanced_loader := Some advanced_loader |}
              container advanced_loader tt download_manager config_loader
              eq_refl eq_refl eq_refl eq_refl eq_refl)
    as (handler & Hh & Hfam & _).
  by exists handler.
Qed.

(** The second call of the same factory raises. *)
Lemma create_handler_advanced_twice_witness :
  (create_handler
     (create_handler
        {| cl_family := "char"; cl_config_kls := "CharTokenizerConfig";
           cl_loader := None; cl_advanced_loader := Some advanced_loader |}
        (resolver_of container)).1
     (resolver_of container)).2
  = Exc (ValueError
           "`loader` and `advanced_loader` must not be specified at the same time.").
Proof.
  by apply create_handler_advanced_twice with (advanced_loader := advanced_loader).
Defined.

(** Without a [tokenizer] field nothing is downloaded; without network
    the [OSError] of the download is raised as it is; the [ValueError] of
    a malformed card configuration is raised as it is, and the loader is
    not called. *)
Lemma load_tokenizer_passes_errors_witness :
  load_tokenizer handler card_without_tokenizer None true []
  = ([], Exc (OtherError "AssetCardFieldNotFoundError"))
  ∧ load_tokenizer offline_handler (card "en" "https") None true []
    = ([Download https "en" true], Exc (OSError "network is unreachable"))
  ∧ load_tokenizer (with_asset_config_loader handler strict_config_loader)
      (card "en" "https") None true []
    = ([Download https "en" true;
        LoadConfig "en" default_config "tokenizer_config"],
       Exc (ValueError "unknown field")).
Proof.
  split; [|split].
  - exact (load_tokenizer_passes_errors issubclass construct
             operational_system_error handler card_without_tokenizer None true []).
  - exact (load_tokenizer_passes_errors issubclass construct
             operational_system_error offline_handler (card "en" "https")
             None true [] https_supported).
  - apply (load_tokenizer_passes_errors issubclass construct
             operational_system_error
             (with_asset_config_loader handler strict_config_loader)
             (card "en" "https") None true [] https_supported).
    reflexivity.
Defined.

(** The family of the example, with a configuration class that needs an
    argument. *)
Lemma load_tokenizer_no_default_config_witness :
  Tokenizers.load_tokenizer issubclass no_default operational_system_error
    handler (card "en" "https") None true []
  = ([Download https "en" true],
     Exc (InternalError
            "Default configuration of the char tokenizer family cannot be constructed."
            (Some (TypeError
                     "__init__() missing 1 required positional argument: 'vocab'")))).
Proof.
  exact (load_tokenizer_no_default_config issubclass no_default
           operational_system_error handler (card "en" "https") true
           https "/cache/en" []
           "__init__() missing 1 required positional argument: 'vocab'"
           eq_refl https_supported eq_refl eq_refl).
Defined.

(** Loading with the caller's configuration, on the example handler: the
    download, then [load_custom_tokenizer]. *)
Lemma load_tokenizer_custom_composes_witness :
  load_tokenizer handler (card "en" "https") (Some (config "plain")) true []
  = ([Download https "en" true; Load "/cache/en" (config "plain")],
     Val "tokenizer at /cache/en").
Proof.
  rewrite (load_tokenizer_custom_composes issubclass construct
             operational_system_error handler (card "en" "https")
             (config "plain") true https "/cache/en" []
             eq_refl https_supported eq_refl).
  reflexivity.
Defined.

(** The loader of the example rejects the configuration with a
    [ValueError]: read from the card, the error is wrapped; passed by the
    caller, it is not. *)
Lemma load_tokenizer_value_error_witness :
  load_tokenizer handler (card "invalid" "https") None true [] =
  ([Download https "invalid" true;
    LoadConfig "invalid" default_config "tokenizer_config";
    Load "/cache/invalid" (config "invalid")],
   Exc (AssetCardError "invalid"
          "tokenizer_config field of the invalid asset card is not a valid char tokenizer configuration."
          (Some (ValueError "unknown vocabulary kind"))))
  ∧ load_tokenizer handler (card "en" "https") (Some (config "invalid")) true [] =
    ([Download https "en" true; Load "/cache/en" (config "invalid")],
     Exc (ValueError "unknown vocabulary kind"))
  ∧ load_tokenizer handler (card "en" "https")
      (Some {| obj_type := "BpeTokenizerConfig"; obj_repr := "plain" |}) true [] =
    ([Download https "en" true],
     Exc (TypeError
            "`config` must be of type `<class 'CharTokenizerConfig'>`, but is of type `<class 'BpeTokenizerConfig'>` instead.")).
Proof.
  split; [|split].
  - apply (load_tokenizer_value_error issubclass construct
             operational_system_error handler (card "invalid" "https") None true
             https "/cache/invalid" [] "unknown vocabulary kind"
             eq_refl https_supported eq_refl
             (config "invalid")
             [Download https "invalid" true;
              LoadConfig "invalid" default_config "tokenizer_config"]);
      reflexivity.
  - apply (load_tokenizer_value_error issubclass construct
             operational_system_error handler (card "en" "https")
             (Some (config "invalid")) true
             https "/cache/en" [] "unknown vocabulary kind"
             eq_refl https_supported eq_refl).
    reflexivity.
  - apply (load_tokenizer_value_error issubclass construct
             operational_system_error handler (card "en" "https")
             (Some {| obj_type := "BpeTokenizerConfig"; obj_repr := "plain" |})
             true https "/cache/en" [] "" eq_refl https_supported eq_refl).
Defined.

(** The loader of the example does not find the model file: under the
    [file] scheme the card is blamed, under [https] the system is.  A
    card with an [s3] tokenizer is refused before any download. *)
Lemma load_tokenizer_asset_errors_witness :
  load_tokenizer handler (card "en" "https") (Some (config "corrupt")) true [] =
  ([Download https "en" true; Load "/cache/en" (config "corrupt")],
   Exc (AssetCardError "en"
          "Tokenizer model of the en asset card cannot be loaded."
          (Some (TokenizerModelError "/cache/en" "not a SentencePiece model"))))
  ∧ load_tokenizer handler (card "missing" "file") None true [] =
  ([Download file "missing" true;
    LoadConfig "missing" default_config "tokenizer_config";
    Load "/cache/missing" (config "missing")],
   Exc (AssetCardError "missing"
          "/cache/missing pointed to by the tokenizer field of the missing asset card is not found."
          None))
  ∧ load_tokenizer handler (card "missing" "https") None true [] =
    ([Download https "missing" true;
      LoadConfig "missing" default_config "tokenizer_config";
      Load "/cache/missing" (config "missing")],
     Exc (operational_system_error (FileNotFoundError "/cache/missing")))
  ∧ load_tokenizer handler (card "en" "s3") None true [] =
    ([],
     Exc (AssetCardError "en"
            "tokenizer URI scheme of the en asset card is expected to be a supported scheme, but is s3 instead."
            None)).
Proof.
  split; [|split; [|split]].
  - pose proof (load_tokenizer_asset_errors issubclass construct
                  operational_system_error handler (card "en" "https")
                  (Some (config "corrupt")) true https [] eq_refl) as H.
    cbn zeta in H. rewrite (bool_decide_eq_true_2 _ https_supported) in H.
    apply (H "/cache/en" (config "corrupt") true [Download https "en" true]
             (TokenizerModelError "/cache/en" "not a SentencePiece model"));
      reflexivity.
  - pose proof (load_tokenizer_asset_errors issubclass construct
                  operational_system_error handler (card "missing" "file")
                  None true file [] eq_refl) as H.
    cbn zeta in H. rewrite (bool_decide_eq_true_2 _ file_supported) in H.
    apply (H "/cache/missing" (config "missing") false
             [Download file "missing" true;
              LoadConfig "missing" default_config "tokenizer_config"]
             (FileNotFoundError "/cache/missing")); reflexivity.
  - pose proof (load_tokenizer_asset_errors issubclass construct
                  operational_system_error handler (card "missing" "https")
                  None true https [] eq_refl) as H.
    cbn zeta in H. rewrite (bool_decide_eq_true_2 _ https_supported) in H.
    apply (H "/cache/missing" (config "missing") false
             [Download https "missing" true;
              LoadConfig "missing" default_config "tokenizer_config"]
             (FileNotFoundError "/cache/missing")); reflexivity.
  - pose proof (load_tokenizer_asset_errors issubclass construct
                  operational_system_error handler (card "en" "s3")
                  None true {| scheme := "s3"; uri_rest := "tok.model" |} []
                  eq_refl) as H.
    cbn zeta in H. rewrite bool_decide_eq_false_2 in H; [exact H|].
    exact s3_not_supported.
Defined.

End TokenizerExampleProperties.

(* ===================================================================== *)
(** * Properties of the option records and of the speech dataset          *)
(* ===================================================================== *)

Section RecordProperties.

Import DatasetsConfig.

Context {object : Type}.

Local Open Scope Z_scope.

(** Without an [extras] argument the constructor allocates: the address
    of [extras] was not in use, and the store gains an empty mapping
    there and nothing else. *)
Lemma DataReadOptions_init_fresh (kw : DataReadOptions_kwargs) (h : store object) :
  kw_extras kw = None →
  (extras (DataReadOptions_init kw h).2 ∉ dom h)
  ∧ ((DataReadOptions_init kw h).1
     = <[extras (DataReadOptions_init kw h).2 := ∅]> h).
Proof.
  intros Hkw. unfold DataReadOptions_init, new_dict. rewrite Hkw. cbn.
  split; [apply is_fresh|done].
Qed.

(** X22. Two option records built with defaults do not share their
    [extras]: filling the mapping of the first leaves the mapping of the
    second empty. *)
Lemma DataReadOptions_extras_not_shared (h : store object) key value :
  let '(h1, o1) := DataReadOptions_init no_kwargs h in
  let '(h2, o2) := DataReadOptions_init no_kwargs h1 in
  extras o1 ≠ extras o2
  ∧ alter (insert key value) (extras o1) h2 !! extras o2 = Some ∅.
Proof.
  cbn. set (l1 := fresh (dom h)). set (l2 := fresh (dom (<[l1:=∅]> h))).
  assert (l1 ≠ l2) as Hne.
  { intros Heq. apply (is_fresh (dom (<[l1:=∅]> h))). fold l2. rewrite <- Heq.
    rewrite dom_insert_L. set_solver. }
  split; [done|].
  rewrite lookup_alter_ne by done. apply lookup_insert_eq.
Qed.

End RecordProperties.

Section SpeechProperties.

Import DatasetsConfig Speech.

Context {Gang DataType DataPipelineReader : Type}.

(** C6. [GenericSpeechDataset] is a stub: [create_reader] raises
    [NotSupportedError] whatever its arguments, returns no reader and
    leaves the dataset as it was; [splits] is the empty set; [from_path]
    returns a [GenericSpeechDataset] for every path and name. *)
Theorem generic_speech_dataset_stub (self : GenericSpeechDataset)
    (split : string) (gang : Gang) (min_audio_len max_audio_len : Z)
    (batching : Batching)
    (options : option (@SpeechReadOptions DataType))
    (path : Path) (name : option string) :
  create_reader (DataPipelineReader := DataPipelineReader)
    self split gang min_audio_len max_audio_len batching options
  = (self, inl (NotSupportedError "not supported yet."))
  ∧ (∀ reader : DataPipelineReader,
       (create_reader self split gang min_audio_len max_audio_len batching
          options).2 ≠ inr reader)
  ∧ splits self = ∅
  ∧ (split ∉ splits self)
  ∧ from_path path name = GenericSpeechDataset_init.
Proof.
  split; [done|]. split; [by intros reader|].
  split; [done|]. split; [|done].
  unfold splits. set_solver.
Qed.

End SpeechProperties.

(* ===================================================================== *)
(** * Properties of the module size accounting                            *)
(* ===================================================================== *)

Section LogProperties.

Import Log.

Local Open Scope Z_scope.

(** A loop keeps what each of its steps keeps. *)
Lemma fold_left_keeps {A B} (P : A → Prop) (f : A → B → A) l a :
  (∀ a x, P a → P (f a x)) → P a → P (fold_left f l a).
Proof.
  intros Hstep. revert a. induction l as [|x l IH]; intros a Ha; [done|].
  cbn. apply IH, Hstep, Ha.
Qed.

Lemma get_numel_nonneg tensor : 0 ≤ get_numel tensor.
Proof. unfold get_numel. destruct (to_local tensor); lia. Qed.

(** The assignments of the loop over the parameters, taken together. *)
Lemma count_param_record info param :
  count_param info (Some param) =
  let numel := get_numel param in
  let size_bytes := numel * Z.of_N (element_size param) in
  {| param_size := param_size info + numel;
     param_size_bytes := param_size_bytes info + size_bytes;
     trainable_param_size :=
       if requires_grad param then trainable_param_size info + numel
       else trainable_param_size info;
     trainable_param_size_bytes :=
       if requires_grad param then trainable_param_size_bytes info + size_bytes
       else trainable_param_size_bytes info;
     buffer_size := buffer_size info;
     buffer_size_bytes := buffer_size_bytes info;
     total_size := total_size info + numel;
     total_size_bytes := total_size_bytes info + size_bytes |}.
Proof.
  unfold count_param. destruct info. by destruct (requires_grad param).
Qed.

(** The assignments of the loop over the buffers, taken together. *)
Lemma count_buffer_record info buffer :
  count_buffer info (Some buffer) =
  let numel := Z.of_N (numel buffer) in
  let size_bytes := numel * Z.of_N (element_size buffer) in
  {| param_size := param_size info;
     param_size_bytes := param_size_bytes info;
     trainable_param_size := trainable_param_size info;
     trainable_param_size_bytes := trainable_param_size_bytes info;
     buffer_size := buffer_size info + numel;
     buffer_size_bytes := buffer_size_bytes info + size_bytes;
     total_size := total_size info + numel;
     total_size_bytes := total_size_bytes info + size_bytes |}.
Proof. unfold count_buffer. by destruct info. Qed.

Lemma count_param_consistent info param :
  consistent info → consistent (count_param info param).
Proof.
  unfold consistent. intros H. destruct param as [param|]; [|done].
  rewrite count_param_record. cbn.
  pose proof (get_numel_nonneg param) as Hn.
  assert (0 ≤ get_numel param * Z.of_N (element_size param)) as Hb
    by (apply Z.mul_nonneg_nonneg; lia).
  destruct (requires_grad param); lia.
Qed.

Lemma count_buffer_consistent info buffer :
  consistent info → consistent (count_buffer info buffer).
Proof.
  unfold consistent. intros H. destruct buffer as [buffer|]; [|done].
  rewrite count_buffer_record. cbn.
  assert (0 ≤ Z.of_N (numel buffer) * Z.of_N (element_size buffer)) as Hb
    by (apply Z.mul_nonneg_nonneg; lia).
  lia.
Qed.

Lemma get_module_size_info_consistent module :
  consistent (get_module_size_info module).
Proof.
  unfold get_module_size_info.
  apply fold_left_keeps; [apply count_buffer_consistent|].
  apply fold_left_keeps; [apply count_param_consistent|].
  unfold consistent. cbn. lia.
Qed.

(** C9. The sizes returned by [get_module_size_info] add up: the total is
    parameters plus buffers, in elements and in bytes; the trainable
    parameters are at most the parameters; no size is negative. *)
Theorem get_module_size_info_adds_up (module : Module_) :
  let info := get_module_size_info module in
  total_size info = param_size info + buffer_size info
  ∧ total_size_bytes info = param_size_bytes info + buffer_size_bytes info
  ∧ trainable_param_size info ≤ param_size info
  ∧ trainable_param_size_bytes info ≤ param_size_bytes info
  ∧ 0 ≤ param_size info ∧ 0 ≤ param_size_bytes info
  ∧ 0 ≤ trainable_param_size info ∧ 0 ≤ trainable_param_size_bytes info
  ∧ 0 ≤ buffer_size info ∧ 0 ≤ buffer_size_bytes info
  ∧ 0 ≤ total_size info ∧ 0 ≤ total_size_bytes info.
Proof.
  intros info. pose proof (get_module_size_info_consistent module) as H.
  fold info in H. unfold consistent in H. lia.
Qed.

Lemma total_cons f t l : total f (t :: l) = from_option f 0 t + total f l.
Proof. done. Qed.

Lemma total_app f l1 l2 : total f (l1 ++ l2) = total f l1 + total f l2.
Proof. unfold total. induction l1 as [|t l1 IH]; cbn; [done|]. rewrite IH. lia. Qed.

Lemma total_Permutation f l1 l2 : l1 ≡ₚ l2 → total f l1 = total f l2.
Proof. unfold total. induction 1; cbn; lia. Qed.

(** The loop over the parameters adds their sizes to the parameter, the
    trainable and the total counters. *)
Lemma fold_count_param l info :
  fold_left count_param l info =
  {| param_size := param_size info + total get_numel l;
     param_size_bytes := param_size_bytes info + total (bytes get_numel) l;
     trainable_param_size :=
       trainable_param_size info + total (if_trainable get_numel) l;
     trainable_param_size_bytes :=
       trainable_param_size_bytes info + total (if_trainable (bytes get_numel)) l;
     buffer_size := buffer_size info;
     buffer_size_bytes := buffer_size_bytes info;
     total_size := total_size info + total get_numel l;
     total_size_bytes := total_size_bytes info + total (bytes get_numel) l |}.
Proof.
  revert info. induction l as [|[t|] l IH]; intros info.
  - destruct info. unfold total. cbn. f_equal; lia.
  - cbn [fold_left]. rewrite IH, !total_cons, count_param_record. destruct info.
    cbn -[total bytes if_trainable get_numel].
    change (if_trainable (bytes get_numel) t)
      with (if requires_grad t then get_numel t * Z.of_N (element_size t) else 0).
    change (if_trainable get_numel t)
      with (if requires_grad t then get_numel t else 0).
    change (bytes get_numel t) with (get_numel t * Z.of_N (element_size t)).
    destruct (requires_grad t); f_equal; lia.
  - cbn [fold_left]. rewrite IH, !total_cons.
    cbn -[total bytes if_trainable get_numel]. f_equal; lia.
Qed.

(** The loop over the buffers adds their sizes to the buffer and the
    total counters. *)
Lemma fold_count_buffer l info :
  fold_left count_buffer l info =
  {| param_size := param_size info;
     param_size_bytes := param_size_bytes info;
     trainable_param_size := trainable_param_size info;
     trainable_param_size_bytes := trainable_param_size_bytes info;
     buffer_size := buffer_size info + total global_numel l;
     buffer_size_bytes := buffer_size_bytes info + total (bytes global_numel) l;
     total_size := total_size info + total global_numel l;
     total_size_bytes := total_size_bytes info + total (bytes global_numel) l |}.
Proof.
  revert info. induction l as [|[t|] l IH]; intros info.
  - destruct info. unfold total. cbn. f_equal; lia.
  - cbn [fold_left]. rewrite IH, !total_cons, count_buffer_record. destruct info.
    cbn -[total bytes global_numel].
    change (bytes global_numel t) with (Z.of_N (numel t) * Z.of_N (element_size t)).
    change (global_numel t) with (Z.of_N (numel t)).
    f_equal; lia.
  - cbn [fold_left]. rewrite IH, !total_cons.
    cbn -[total bytes global_numel]. f_equal; lia.
Qed.

(** The eight sizes as sums over the parameters and the buffers. *)
Lemma get_module_size_info_closed module :
  get_module_size_info module =
  {| param_size := total get_numel (parameters module);
     param_size_bytes := total (bytes get_numel) (parameters module);
     trainable_param_size := total (if_trainable get_numel) (parameters module);
     trainable_param_size_bytes :=
       total (if_trainable (bytes get_numel)) (parameters module);
     buffer_size := total global_numel (buffers module);
     buffer_size_bytes := total (bytes global_numel) (buffers module);
     total_size :=
       total get_numel (parameters module) + total global_numel (buffers module);
     total_size_bytes :=
       total (bytes get_numel) (parameters module)
       + total (bytes global_numel) (buffers module) |}.
Proof.
  unfold get_module_size_info. rewrite fold_count_buffer, fold_count_param.
  cbn. f_equal; lia.
Qed.

(** X11. Each size returned by [get_module_size_info] is a sum over the
    parameters or the buffers that are not [None]: a parameter counts for
    the elements of its local shard when it is a [DTensor] and for all
    its elements otherwise, a buffer always counts for all its elements,
    a size in bytes multiplies the count by the element size, and the
    trainable sizes count the parameters that require a gradient. *)
Theorem get_module_size_info_sums (module : Module_) :
  let info := get_module_size_info module in
  param_size info = total get_numel (parameters module)
  ∧ param_size_bytes info = total (bytes get_numel) (parameters module)
  ∧ trainable_param_size info
    = total (if_trainable get_numel) (parameters module)
  ∧ trainable_param_size_bytes info
    = total (if_trainable (bytes get_numel)) (parameters module)
  ∧ buffer_size info = total global_numel (buffers module)
  ∧ buffer_size_bytes info = total (bytes global_numel) (buffers module).
Proof. cbn zeta. rewrite get_module_size_info_closed. by repeat split. Qed.

(** X12. The sizes do not depend on the order in which the module yields
    its parameters and its buffers. *)
Theorem get_module_size_info_order (params params' bufs bufs' : list (option Tensor)) :
  params ≡ₚ params' → bufs ≡ₚ bufs' →
  get_module_size_info {| parameters := params; buffers := bufs |}
  = get_module_size_info {| parameters := params'; buffers := bufs' |}.
Proof.
  intros Hp Hb. rewrite !get_module_size_info_closed. cbn [parameters buffers].
  by rewrite !(total_Permutation _ _ _ Hp), !(total_Permutation _ _ _ Hb).
Qed.

(** X13. When every parameter requires a gradient the trainable sizes are
    the parameter sizes; when none does they are zero. *)
Theorem get_module_size_info_trainable (module : Module_) (b : bool) :
  Forall (λ p, from_option requires_grad b p = b) (parameters module) →
  let info := get_module_size_info module in
  trainable_param_size info = (if b then param_size info else 0)
  ∧ trainable_param_size_bytes info = (if b then param_size_bytes info else 0).
Proof.
  intros Hall. cbn zeta. rewrite get_module_size_info_closed.
  cbn [trainable_param_size trainable_param_size_bytes param_size param_size_bytes].
  assert (∀ f, total (if_trainable f) (parameters module)
               = if b then total f (parameters module) else 0) as Htot.
  { intros f. induction Hall as [|[t|] l Ht _ IH]; [by destruct b|..];
      rewrite !total_cons, IH; cbn in *.
    - unfold if_trainable. rewrite Ht. destruct b; lia.
    - by destruct b. }
  by rewrite !Htot.
Qed.

(** The sizes of a module whose parameters are those of two modules, the
    first parameter moved last. *)
Lemma get_module_size_info_order_witness :
  get_module_size_info
    {| parameters :=
         [Some {| numel := 6; element_size := 4; requires_grad := false;
                  to_local := None |};
          Some {| numel := 8; element_size := 2; requires_grad := true;
                  to_local := Some 4%N |}];
       buffers := [] |}
  = get_module_size_info
      {| parameters :=
           [Some {| numel := 8; element_size := 2; requires_grad := true;
                    to_local := Some 4%N |};
            Some {| numel := 6; element_size := 4; requires_grad := false;
                    to_local := None |}];
         buffers := [] |}.
Proof.
  apply get_module_size_info_order; [apply Permutation_swap|done].
Defined.

(** A module whose two parameters both require a gradient. *)
Lemma get_module_size_info_trainable_witness :
  let info :=
    get_module_size_info
      {| parameters :=
           [Some {| numel := 6; element_size := 4; requires_grad := true;
                    to_local := None |};
            None;
            Some {| numel := 8; element_size := 2; requires_grad := true;
                    to_local := None |}];
         buffers := [] |} in
  trainable_param_size info = param_size info
  ∧ trainable_param_size_bytes info = param_size_bytes info.
Proof.
  apply (get_module_size_info_trainable
           {| parameters :=
                [Some {| numel := 6; element_size := 4; requires_grad := true;
                         to_local := None |};
                 None;
                 Some {| numel := 8; element_size := 2; requires_grad := true;
                         to_local := None |}];
              buffers := [] |} true).
  by repeat constructor.
Defined.

(** A module with a frozen parameter, a sharded trainable parameter and a
    buffer, measured. *)
Example get_module_size_info_example :
  get_module_size_info
    {| parameters :=
         [Some {| numel := 6; element_size := 4; requires_grad := false;
                  to_local := None |};
          None;
          Some {| numel := 8; element_size := 2; requires_grad := true;
                  to_local := Some 4%N |}];
       buffers :=
         [Some {| numel := 3; element_size := 8; requires_grad := false;
                  to_local := None |}] |}
  = {| param_size := 10; param_size_bytes := 32;
       trainable_param_size := 4; trainable_param_size_bytes := 8;
       buffer_size := 3; buffer_size_bytes := 24;
       total_size := 13; total_size_bytes := 56 |}.
Proof. reflexivity. Qed.

(** Assignments made one sequence after the other are one sequence. *)
Lemma assign_app info l1 l2 :
  assign (assign info l1) l2 = assign info (l1 ++ l2).
Proof. unfold assign. by rewrite fold_left_app. Qed.

(** The body of each loop of [get_module_size_info] is a sequence of
    assignments to the fields of [info]. *)
Lemma count_param_assigns info param :
  ∃ assignments, count_param info param = assign info assignments.
Proof.
  destruct param as [param|]; [|by exists []]. unfold count_param, iadd.
  destruct (requires_grad param).
  - by eexists [(_, _); (_, _); (_, _); (_, _); (_, _); (_, _)].
  - by eexists [(_, _); (_, _); (_, _); (_, _)].
Qed.

Lemma count_buffer_assigns info buffer :
  ∃ assignments, count_buffer info buffer = assign info assignments.
Proof.
  destruct buffer as [buffer|]; [|by exists []]. unfold count_buffer, iadd.
  by eexists [(_, _); (_, _); (_, _); (_, _)].
Qed.

(** A loop whose body assigns to the fields of a record assigns to the
    fields of that record. *)
Lemma fold_left_assigns {A} (body : ModuleSizeInfo → A → ModuleSizeInfo) l :
  (∀ info x, ∃ assignments, body info x = assign info assignments) →
  ∀ info, ∃ assignments, fold_left body l info = assign info assignments.
Proof.
  intros Hbody. induction l as [|x l IH]; intros info; [by exists []|].
  cbn [fold_left]. destruct (Hbody info x) as [l1 ->].
  destruct (IH (assign info l1)) as [l2 ->].
  exists (l1 ++ l2). apply assign_app.
Qed.

End LogProperties.

(* ===================================================================== *)
(** * Properties of the configuration dataclasses                         *)
(* ===================================================================== *)

Section DataclassProperties.

Import DatasetsConfig.

Context {object : Type}.

Local Open Scope Z_scope.



End DataclassProperties.

(* ===================================================================== *)
(** * Properties of the module list                                       *)
(* ===================================================================== *)

Section ModuleListProperties.

Import ModuleList.

Context {Module_ : Type}.

(** Yielding every entry of an enumeration gives back the list. *)
Lemma yield_all (l : list Module_) (g : nat → nat) :
  flat_map (λ '(idx, m), [m]) (imap (λ i m, (g i, m)) l) = l.
Proof.
  revert g. induction l as [|m l IH]; intros g; [done|].
  cbn. f_equal. apply (IH (g ∘ S)).
Qed.

(** Yielding some entries of an enumeration gives a sublist. *)
Lemma yield_some (l : list Module_) (g : nat → nat) (keep : nat → bool) :
  sublist
    (flat_map (λ '(idx, m), if keep idx then [m] else [])
       (imap (λ i m, (g i, m)) l))
    l.
Proof.
  revert g. induction l as [|m l IH]; intros g; [done|].
  cbn. destruct (keep (g 0%nat)); cbn.
  - apply sublist_skip, (IH (g ∘ S)).
  - apply sublist_cons, (IH (g ∘ S)).
Qed.

(** An iteration without a sample yields every submodule. *)
Lemma iter_without_sample (self : @ModuleList Module_) rand :
  (0 <? drop_p self)%float && training self = false →
  __iter__ self rand = modules self.
Proof.
  intros H. unfold __iter__. rewrite H. apply (yield_all _ id).
Qed.

(** X19. Every iteration yields submodules of the list, each position at
    most once and in insertion order, whatever the mode, [drop_p] and the
    sample. *)
Lemma iter_sublist (self : @ModuleList Module_) rand :
  sublist (__iter__ self rand) (modules self).
Proof.
  destruct ((0 <? drop_p self)%float && training self) eqn:Hsample.
  - unfold __iter__. rewrite Hsample.
    apply (yield_some _ id (λ idx, (to_float32 (drop_p self) <? rand idx)%float)).
  - by rewrite iter_without_sample.
Qed.

(** X20. A submodule is yielded exactly when it stands at a position of
    the list that is kept: every position when no sample is drawn, and
    otherwise the positions whose sample is greater than [drop_p] rounded
    to [float32], the precision of the sample. *)
Theorem iter_elem_of (self : @ModuleList Module_) rand m :
  m ∈ __iter__ self rand
  ↔ ∃ idx, modules self !! idx = Some m
           ∧ ((0 <? drop_p self)%float && training self = false
              ∨ (to_float32 (drop_p self) <? rand idx)%float = true).
Proof.
  unfold __iter__, enumerate. rewrite list_elem_of_In, in_flat_map. split.
  - intros ([idx m'] & Hin & Hm). apply list_elem_of_In in Hin.
    apply elem_of_lookup_imap in Hin as (i & y & [= -> ->] & Hl).
    destruct ((0 <? drop_p self)%float && training self).
    + destruct ((to_float32 (drop_p self) <? rand i)%float) eqn:Hkeep; [|done].
      apply list_elem_of_In, list_elem_of_singleton in Hm as ->. eauto.
    + apply list_elem_of_In, list_elem_of_singleton in Hm as ->. eauto.
  - intros (idx & Hl & Hkeep). exists (idx, m). split.
    + apply list_elem_of_In, elem_of_lookup_imap. eauto.
    + destruct ((0 <? drop_p self)%float && training self).
      * destruct Hkeep as [?| ->]; [done|]. by left.
      * by left.
Qed.

(** C10. Iterating a [ModuleList] whose [drop_p] is [0.0], or that is not
    in training mode, yields every submodule once, in insertion order,
    as iterating the underlying list does; an iteration that drops a
    submodule has [drop_p > 0.0] and is in training mode. *)
Theorem iter_drops_only_in_training (self : @ModuleList Module_) rand :
  (drop_p self = 0%float ∨ training self = false →
   __iter__ self rand = modules self)
  ∧ (__iter__ self rand ≠ modules self →
     (0 <? drop_p self)%float = true ∧ training self = true).
Proof.
  split.
  - intros [H|H]; apply iter_without_sample; rewrite H; [done|].
    apply andb_false_r.
  - intros Hdrop.
    destruct ((0 <? drop_p self)%float) eqn:Hp, (training self) eqn:Ht;
      try done; destruct Hdrop; apply iter_without_sample;
      by rewrite Hp, Ht.
Qed.

End ModuleListProperties.

Section ModuleListExampleProperties.

Import ModuleList.

(** Three layers with [drop_p = 0.0] are all yielded; with
    [drop_p = 0.5] in training mode, a sample below [0.5] at index 1
    drops the second layer. *)
Lemma iter_drops_only_in_training_witness :
  __iter__ (ModuleList_init (Some ["layer1"; "layer2"; "layer3"]) None)
           (λ idx, 0.25%float)
  = ["layer1"; "layer2"; "layer3"]
  ∧ __iter__ {| modules := ["layer1"; "layer2"; "layer3"]; drop_p := 0.5;
                training := true |}
             (λ idx, if Nat.eqb idx 1 then 0.25%float else 0.75%float)
    = ["layer1"; "layer3"]
  ∧ (0 <? 0.5)%float = true.
Proof.
  split; [|split; [reflexivity|]].
  - apply (proj1 (iter_drops_only_in_training
                    (ModuleList_init (Some ["layer1"; "layer2"; "layer3"]) None)
                    (λ idx, 0.25%float))).
    left. reflexivity.
  - apply (proj2 (iter_drops_only_in_training
                    {| modules := ["layer1"; "layer2"; "layer3"];
                       drop_p := 0.5; training := true |}
                    (λ idx, if Nat.eqb idx 1 then 0.25%float else 0.75%float))).
    vm_compute. discriminate.
Defined.

(** [drop_p = 0.6] is not a binary32 value: it lies below the binary32
    value nearest to it.  A sample equal to that binary32 value is not
    greater than [drop_p] once [drop_p] is converted, and its layer is
    dropped. *)
Example iter_float32_sample :
  to_float32 0x1.3333333333333p-1 = 0x1.333334p-1%float
  ∧ (0x1.3333333333333p-1 <? 0x1.333334p-1)%float = true
  ∧ __iter__ {| modules := ["layer1"; "layer2"];
                drop_p := 0x1.3333333333333p-1; training := true |}
             (λ idx, if Nat.eqb idx 0 then 0x1.333334p-1%float else 0.75%float)
    = ["layer2"].
Proof. by vm_compute. Qed.

End ModuleListExampleProperties.

(* ===================================================================== *)
(** * Properties of the host line of [log_system_info]                    *)
(* ===================================================================== *)

Section CpuProperties.

Import LogSystem.

(** The ranges collected so far stay in front. *)
Lemma collect_acc cpus b e acc :
  collect cpus b e acc = acc ++ collect cpus b e [].
Proof.
  revert b e acc. induction cpus as [|cpu cpus IH]; intros b e acc; [done|].
  cbn. destruct (cpu =? e + 1); [apply IH|].
  rewrite (IH _ _ (acc ++ _)), (IH _ _ [_]). by rewrite <- app_assoc.
Qed.

(** One step of the loop, without the accumulator. *)
Lemma collect_cons cpu cpus b e :
  collect (cpu :: cpus) b e [] =
  if cpu =? e + 1 then collect cpus b cpu []
  else (b, e) :: collect cpus cpu cpu [].
Proof. cbn. destruct (cpu =? e + 1); [done|]. by rewrite collect_acc. Qed.

(** The ranges spell out the CPUs they were collected from, in order. *)
Lemma collect_cpus cpus b e :
  b ≤ e → flat_map cpus_of (collect cpus b e []) = seq b (S e - b) ++ cpus.
Proof.
  revert b e. induction cpus as [|cpu cpus IH]; intros b e Hbe.
  - cbn. by rewrite app_nil_r.
  - rewrite collect_cons. destruct (Nat.eqb_spec cpu (e + 1)) as [->|Hne].
    + rewrite IH by lia. replace (S (e + 1) - b) with (S (S e - b)) by lia.
      rewrite seq_S, <- app_assoc. do 2 f_equal. cbn. f_equal. lia.
    + cbn [flat_map]. rewrite IH by lia. unfold cpus_of at 1. cbn [fst snd].
      by replace (S cpu - cpu) with 1 by lia.
Qed.

(** On CPUs that go up strictly, the ranges are separated, and the first
    one starts where the collection started. *)
Lemma collect_separated cpus b e :
  b ≤ e → Forall (λ cpu, e < cpu) cpus → StronglySorted lt cpus →
  separated (collect cpus b e [])
  ∧ ∃ e' rest, collect cpus b e [] = (b, e') :: rest.
Proof.
  revert b e. induction cpus as [|cpu cpus IH]; intros b e Hbe Hlt Hsorted.
  - cbn. split; [done|]. by eexists _, _.
  - rewrite collect_cons.
    apply Forall_cons in Hlt as [Hcpu Hlt].
    apply StronglySorted_inv in Hsorted as [Hsorted Hall].
    destruct (Nat.eqb_spec cpu (e + 1)) as [->|Hne].
    + apply IH; [lia|exact Hall|exact Hsorted].
    + destruct (IH cpu cpu) as (Hsep & e' & rest & Heq);
        [lia|exact Hall|exact Hsorted|].
      rewrite Heq in Hsep |- *. split; [|by eexists _, _].
      cbn [separated]. split; [done|]. split; [lia|done].
Qed.

(** The CPUs of a mask, sorted, go up strictly. *)
Lemma sorted_cpus_strict (mask : gset nat) : StronglySorted lt (sorted_cpus mask).
Proof.
  unfold sorted_cpus.
  assert (NoDup (merge_sort le (elements mask))) as Hnd.
  { rewrite merge_sort_Permutation. apply NoDup_elements. }
  pose proof (StronglySorted_merge_sort le (elements mask)) as Hs.
  induction Hs as [|x l Hs IH Hall]; [constructor|].
  apply NoDup_cons in Hnd as [Hx Hnd]. constructor; [by apply IH|].
  apply Forall_forall. intros y Hy.
  rewrite Forall_forall in Hall. specialize (Hall y Hy).
  assert (x ≠ y) by (by intros ->). lia.
Qed.

Lemma sorted_cpus_elem_of (mask : gset nat) cpu :
  cpu ∈ sorted_cpus mask ↔ cpu ∈ mask.
Proof.
  unfold sorted_cpus. by rewrite merge_sort_Permutation, elem_of_elements.
Qed.

Lemma sorted_cpus_nonempty (mask : gset nat) : mask ≠ ∅ → sorted_cpus mask ≠ [].
Proof.
  intros Hne Hnil. apply Hne. apply set_eq. intros cpu.
  rewrite <- sorted_cpus_elem_of, Hnil. set_solver.
Qed.

(** X14. The ranges shown for an affinity mask cover the CPUs of the mask
    and no other: spelled out, they are the CPUs of the mask in
    increasing order. *)
Theorem cpu_ranges_cover (affinity_mask : gset nat) :
  affinity_mask ≠ ∅ →
  ∃ ranges,
    cpu_ranges (sorted_cpus affinity_mask) = Some ranges
    ∧ flat_map cpus_of ranges = sorted_cpus affinity_mask
    ∧ ∀ cpu, cpu ∈ affinity_mask ↔ ∃ r, r ∈ ranges ∧ r.1 ≤ cpu ≤ r.2.
Proof.
  intros Hne. apply sorted_cpus_nonempty in Hne.
  assert (∀ cpu, cpu ∈ sorted_cpus affinity_mask ↔ cpu ∈ affinity_mask) as Hin
    by apply sorted_cpus_elem_of.
  destruct (sorted_cpus affinity_mask) as [|first rest]; [done|].
  exists (collect rest first first []).
  assert (flat_map cpus_of (collect rest first first []) = first :: rest) as Hrt.
  { rewrite collect_cpus by done. by replace (S first - first) with 1 by lia. }
  split; [done|]. split; [done|].
  intros cpu. rewrite <- Hin, <- Hrt, list_elem_of_In, in_flat_map.
  split.
  - intros (r & Hr & Hcpu). exists r. rewrite list_elem_of_In. split; [done|].
    unfold cpus_of in Hcpu. apply in_seq in Hcpu. lia.
  - intros (r & Hr & Hcpu). exists r. rewrite list_elem_of_In in Hr.
    split; [done|]. unfold cpus_of. apply in_seq. lia.
Qed.

(** X15. The ranges shown for an affinity mask are as long as they can
    be: each goes from a CPU to a CPU that is not smaller, they go up,
    and between one range and the next at least one CPU is missing. *)
Theorem cpu_ranges_separated (affinity_mask : gset nat) :
  affinity_mask ≠ ∅ →
  ∃ ranges,
    cpu_ranges (sorted_cpus affinity_mask) = Some ranges ∧ separated ranges.
Proof.
  intros Hne. apply sorted_cpus_nonempty in Hne.
  pose proof (sorted_cpus_strict affinity_mask) as Hs.
  destruct (sorted_cpus affinity_mask) as [|first rest]; [done|].
  exists (collect rest first first []). split; [done|].
  apply StronglySorted_inv in Hs as [Hs Hall].
  by apply collect_separated.
Qed.

(** X16. Where [os.sched_getaffinity] does not exist every CPU counts as
    available and no range is shown; without a CPU count the line shows a
    dash; an empty affinity mask on a machine with CPUs raises
    [IndexError]. *)
Theorem cpu_info_edges (num_cpus : nat) (sched_getaffinity : option (gset nat)) :
  cpu_info None sched_getaffinity = inr "-"
  ∧ cpu_info (Some num_cpus) None
    = inr (pretty num_cpus +:+ "/" +:+ pretty num_cpus)
  ∧ (num_cpus ≠ 0 → cpu_info (Some num_cpus) (Some ∅) = inl IndexError).
Proof.
  split; [by destruct sched_getaffinity|]. split.
  - unfold cpu_info. rewrite size_set_seq. by rewrite Nat.eqb_refl.
  - intros Hn. unfold cpu_info. rewrite size_empty.
    destruct (Nat.eqb_spec 0 num_cpus) as [?|_]; [lia|]. cbn [negb].
    unfold sorted_cpus. by rewrite elements_empty.
Qed.

(** CPUs 0 to 3, 5 and 7 of eight. *)
Lemma cpu_ranges_cover_witness :
  ∃ ranges,
    cpu_ranges (sorted_cpus {[0; 1; 2; 3; 5; 7]}) = Some ranges
    ∧ flat_map cpus_of ranges = sorted_cpus {[0; 1; 2; 3; 5; 7]}
    ∧ ∀ cpu, cpu ∈ ({[0; 1; 2; 3; 5; 7]} : gset nat)
             ↔ ∃ r, r ∈ ranges ∧ r.1 ≤ cpu ≤ r.2.
Proof.
  apply (cpu_ranges_cover {[0; 1; 2; 3; 5; 7]}).
  intros H. assert (0 ∈ (∅ : gset nat)) as H0 by (rewrite <- H; set_solver).
  set_solver.
Defined.

Lemma cpu_ranges_separated_witness :
  ∃ ranges,
    cpu_ranges (sorted_cpus {[0; 1; 2; 3; 5; 7]}) = Some ranges ∧ separated ranges.
Proof.
  apply (cpu_ranges_separated {[0; 1; 2; 3; 5; 7]}).
  intros H. assert (0 ∈ (∅ : gset nat)) as H0 by (rewrite <- H; set_solver).
  set_solver.
Defined.

Lemma cpu_info_edges_witness :
  cpu_info (Some 8) None = inr "8/8"
  ∧ cpu_info (Some 8) (Some ∅) = inl IndexError.
Proof.
  destruct (cpu_info_edges 8 None) as (_ & Hall & Hempty).
  split; [exact Hall|]. apply Hempty. lia.
Defined.

(** The line shown for CPUs 0 to 3, 5 and 7 of eight. *)
Example cpu_info_example :
  cpu_info (Some 8) (Some {[0; 1; 2; 3; 5; 7]}) = inr "6/8 (0-3,5,7)".
Proof. by vm_compute. Qed.

End CpuProperties.

Section DistNameProperties.

Import LogSystem.

Variable isspace : ascii → bool.

Local Abbreviation rstrip := (rstrip isspace).
Local Abbreviation lstrip := (lstrip isspace).
Local Abbreviation strip := (strip isspace).
Local Abbreviation scan := (scan isspace).
Local Abbreviation read_dist_name := (read_dist_name isspace).

(** Stripping on the right stops at a character that is not a space. *)
Lemma rstrip_app_nonspace s c t :
  isspace c = false → rstrip (s +:+ String c t) = s +:+ String c (rstrip t).
Proof.
  intros Hc. induction s as [|a s IH].
  - change (rstrip (String c t) = String c (rstrip t)). simpl.
    destruct (rstrip t); [by rewrite Hc|done].
  - change (rstrip (String a (s +:+ String c t))
            = String a (s +:+ String c (rstrip t))).
    simpl. rewrite IH. by destruct s.
Qed.

Lemma last_char_app s c : last_char (s +:+ String c "") = Some c.
Proof.
  induction s as [|a s IH]; [done|]. destruct s as [|b s]; [done|]. exact IH.
Qed.

Lemma last_char_cons a s c : last_char (String a (s +:+ String c "")) = Some c.
Proof. apply (last_char_app (String a s)). Qed.

Lemma drop_last_app s c : drop_last (s +:+ String c "") = s.
Proof.
  induction s as [|a s IH]; [done|]. destruct s as [|b s]; [done|].
  change (String a (drop_last (String b s +:+ String c "")) = String a (String b s)).
  by rewrite IH.
Qed.

Lemma length_app_char s c : String.length (s +:+ String c "") = S (String.length s).
Proof.
  induction s as [|a s IH]; [done|].
  change (S (String.length (s +:+ String c "")) = S (S (String.length s))).
  by rewrite IH.
Qed.

Lemma lstrip_nonspace c s : isspace c = false → lstrip (String c s) = String c s.
Proof. intros Hc. simpl. by rewrite Hc. Qed.

(** A text between two characters that are not spaces has nothing to
    strip. *)
Lemma strip_quoted name :
  isspace quote = false →
  strip (String quote (name +:+ String quote ""))
  = String quote (name +:+ String quote "").
Proof.
  intros Hquote. unfold LogSystem.strip. rewrite lstrip_nonspace by done.
  change (String quote (name +:+ String quote ""))
    with (String quote name +:+ String quote "").
  by rewrite rstrip_app_nonspace.
Qed.

(** A text between double quotes loses them. *)
Lemma unquote_quoted name :
  unquote (String quote (name +:+ String quote "")) = name.
Proof.
  unfold unquote. rewrite last_char_cons, Ascii.eqb_refl.
  change (String.length (String quote (name +:+ String quote "")))
    with (S (String.length (name +:+ String quote ""))).
  rewrite length_app_char, bool_decide_eq_true_2 by done.
  apply drop_last_app.
Qed.

(** The lines before the first one that starts with [PRETTY_NAME] play no
    part. *)
Lemma scan_skip pre rest :
  Forall (λ line, String.prefix "PRETTY_NAME" line = false) pre →
  scan (pre ++ rest) = scan rest.
Proof.
  induction 1 as [|line pre Hline _ IH]; [done|].
  cbn [app LogSystem.scan]. by rewrite Hline.
Qed.

(** X17. A name written between double quotes after [PRETTY_NAME=], on
    the first line that starts with [PRETTY_NAME], is read back as it was
    written, whatever characters it is made of. *)
Theorem read_dist_name_quoted pre name post :
  isspace quote = false →
  isspace newline = true →
  Forall (λ line, String.prefix "PRETTY_NAME" line = false) pre →
  read_dist_name
    (Some (pre ++
           ("PRETTY_NAME=" +:+
            String quote (name +:+ String quote (String newline ""))) :: post))
  = Some name.
Proof.
  intros Hquote Hnewline Hpre. cbn [LogSystem.read_dist_name].
  rewrite scan_skip by done. cbn [LogSystem.scan].
  change (String.prefix "PRETTY_NAME"
            ("PRETTY_NAME=" +:+
             String quote (name +:+ String quote (String newline ""))))
    with true. cbn match.
  change ("PRETTY_NAME=" +:+
          String quote (name +:+ String quote (String newline "")))
    with (("PRETTY_NAME=" +:+ String quote name) +:+
          String quote (String newline "")).
  rewrite rstrip_app_nonspace by done.
  replace (rstrip (String newline "")) with "" by (cbn; by rewrite Hnewline).
  change (split1 "=" (("PRETTY_NAME=" +:+ String quote name) +:+ String quote ""))
    with ["PRETTY_NAME"; String quote name +:+ String quote ""].
  cbn match. f_equal.
  change (String quote name +:+ String quote "")
    with (String quote (name +:+ String quote "")).
  by rewrite strip_quoted, unquote_quoted.
Qed.

(** X18. Only the first line that starts with [PRETTY_NAME] counts: the
    lines before it and the lines after it play no part, also when that
    line has no [=] and no name is found. *)
Theorem read_dist_name_first_match pre line post :
  Forall (λ line, String.prefix "PRETTY_NAME" line = false) pre →
  String.prefix "PRETTY_NAME" line = true →
  read_dist_name (Some (pre ++ line :: post)) = read_dist_name (Some [line]).
Proof.
  intros Hpre Hline. cbn [LogSystem.read_dist_name].
  rewrite scan_skip by done. cbn [LogSystem.scan]. rewrite Hline.
  by destruct (split1 "=" (rstrip line)) as [|? [|? [|? ?]]].
Qed.

End DistNameProperties.

Section DistNameExampleProperties.

Import LogSystem LogSystemExample.

(** The name of the example file. *)
Lemma read_dist_name_quoted_witness :
  read_dist_name isspace (Some os_release) = Some "Ubuntu 22.04.4 LTS".
Proof.
  apply (read_dist_name_quoted isspace [line (quoted "NAME" "Ubuntu")]
           "Ubuntu 22.04.4 LTS" [line "ID=ubuntu"]);
    [reflexivity|reflexivity|].
  by repeat constructor.
Defined.

(** A [PRETTY_NAME] line without [=] hides the one after it. *)
Lemma read_dist_name_first_match_witness :
  read_dist_name isspace
    (Some [line "ID=ubuntu"; line "PRETTY_NAME";
           line (quoted "PRETTY_NAME" "Ubuntu 22.04.4 LTS")])
  = None.
Proof.
  etrans;
    [apply (read_dist_name_first_match isspace [line "ID=ubuntu"]
              (line "PRETTY_NAME")
              [line (quoted "PRETTY_NAME" "Ubuntu 22.04.4 LTS")]);
       [by repeat constructor|reflexivity]
    |reflexivity].
Defined.

End DistNameExampleProperties.
